(** * ColorPickerServer: the room coordinator of the realtime colour picker

    A shallow embedding of [src/routes/index.tsx] (class [ColorPickerServer])
    and the properties of its connect / message / close handlers.

    - [JS]      : the JavaScript values the handlers touch (parsed JSON,
                  [undefined], truthiness, [===]) and the insertion-ordered
                  [Map] that holds the sessions.
    - [Party]   : the part of the partyserver [Server] base class the handlers
                  call ([getConnections], [broadcast], [conn.send]), as a small
                  state / output / exception monad.
    - [ColorPickerServer] : the handlers themselves, statement by statement.

    The transport delivers connect, message and close events one at a time
    ([step]); a handler's effect is the room it leaves and the frames it
    sends, in order.  Between two events the platform may hibernate the
    server: the sockets stay open and the next event finds a new server
    object, with an empty session table. *)

From Stdlib Require Import String List Bool Arith PrimFloat.
From Stdlib Require Import Ascii ZArith Lia.
From Stdlib Require Uint63 HexString.
Import ListNotations.
Local Open Scope string_scope.
Local Open Scope list_scope.
Set Warnings "-register-all".

(* ================================================================== *)
(** ** JavaScript values *)
(* ================================================================== *)

Module JS.

(** The result of [JSON.parse]: numbers are IEEE binary64, as in the engine. *)
Inductive json : Type :=
| JNull
| JBool (b : bool)
| JNum (x : float)
| JStr (s : string)
| JArr (items : list json)
| JObj (fields : list (string * json)).

(** A JavaScript value as a handler sees it: [None] is [undefined], which is
    what reading a missing property gives and what [JSON.stringify] leaves
    out of an object. *)
Definition jsval : Type := option json.

Definition undefined : jsval := None.

(** [if (v)], [v && w]: ToBoolean. *)
Definition truthy (v : jsval) : bool :=
  match v with
  | None => false
  | Some JNull => false
  | Some (JBool b) => b
  | Some (JNum x) => negb (PrimFloat.eqb x 0%float || PrimFloat.is_nan x)
  | Some (JStr s) => negb (String.eqb s "")
  | Some (JArr _) => true
  | Some (JObj _) => true
  end.

(** [a === b] for two values that come from different [JSON.parse] calls:
    primitives compare by value, arrays and objects by reference, and two
    parses never share a reference. *)
Definition strict_eq (a b : jsval) : bool :=
  match a, b with
  | None, None => true
  | Some JNull, Some JNull => true
  | Some (JBool x), Some (JBool y) => Bool.eqb x y
  | Some (JNum x), Some (JNum y) => PrimFloat.eqb x y
  | Some (JStr x), Some (JStr y) => String.eqb x y
  | _, _ => false
  end.

Fixpoint assoc (fields : list (string * json)) (key : string) : jsval :=
  match fields with
  | [] => None
  | (k, v) :: rest => if String.eqb k key then Some v else assoc rest key
  end.

(** [data.key] for the keys the handlers read ([type], [position], ...):
    an own property of an object, [undefined] on anything else.  On [null]
    the access throws; see [Party.member]. *)
Definition prop (data : json) (key : string) : jsval :=
  match data with
  | JObj fields => assoc fields key
  | _ => None
  end.

(** *** [Map<string, V>]: insertion-ordered, one entry per key *)

Section OrderedMap.
Context {V : Type}.

Definition Map : Type := list (string * V).

Definition Map_empty : Map := [].

Fixpoint Map_get (k : string) (m : Map) : option V :=
  match m with
  | [] => None
  | (k', v) :: rest => if String.eqb k' k then Some v else Map_get k rest
  end.

(** [m.set(k, v)]: an existing key keeps its place, a new one goes last. *)
Fixpoint Map_set (k : string) (v : V) (m : Map) : Map :=
  match m with
  | [] => [(k, v)]
  | (k', v') :: rest =>
      if String.eqb k' k then (k, v) :: rest else (k', v') :: Map_set k v rest
  end.

Fixpoint Map_delete (k : string) (m : Map) : Map :=
  match m with
  | [] => []
  | (k', v') :: rest =>
      if String.eqb k' k then rest else (k', v') :: Map_delete k rest
  end.

Definition Map_size (m : Map) : nat := length m.

Definition Map_keys (m : Map) : list string := map fst m.
End OrderedMap.

Arguments Map : clear implicits.

End JS.
Import JS.

(* ================================================================== *)
(** ** Sessions, outbound messages, the room *)
(* ================================================================== *)

(** The value type of [connectedUsers].  The declared types are [string] and
    [any]; at run time every field holds whatever the client's JSON held. *)
Record Session : Type := mkSession {
  color : jsval;
  persistentUserId : jsval;
  lastCursorPosition : jsval;
  lastCursorNormal : jsval
}.

Definition with_persistentUserId (u : Session) (v : jsval) : Session :=
  mkSession (color u) v (lastCursorPosition u) (lastCursorNormal u).

Definition with_cursor (u : Session) (position normal : jsval) : Session :=
  mkSession (color u) (persistentUserId u) position normal.

Definition with_color (u : Session) (c : jsval) : Session :=
  mkSession c (persistentUserId u) (lastCursorPosition u) (lastCursorNormal u).

(** The object literals the server passes to [JSON.stringify], one constructor
    per [type].  A field that is [undefined] is absent from the frame. *)
Inductive ServerMsg : Type :=
| UserJoined (sessionId : string) (color : jsval)
| CursorMove (sessionId : string) (position normal color rgb : jsval)
| CursorLeave (sessionId : string)
| UserColorChange (sessionId : string) (color : jsval)
| CameraSync (camera : jsval)
| UserDisconnect (sessionId : string)
| UserCount (count : nat)
| UserIdentified (sessionId : string).

(** One [conn.send(frame)], in program order. *)
Inductive Sent : Type :=
| Send (to : string) (msg : ServerMsg).

Definition recipient (s : Sent) : string := let 'Send to _ := s in to.
Definition payload (s : Sent) : ServerMsg := let 'Send _ msg := s in msg.

(** The server object: its [connectedUsers] field and the open connections
    the transport reports through [getConnections()], by connection id.  The
    table lives in memory as long as the server object does; the connections
    belong to the transport and outlive it (see [Hibernate]). *)
Record Room : Type := mkRoom {
  connectedUsers : Map Session;
  connections : list string
}.

Definition initial : Room := mkRoom Map_empty [].

(** What [JSON.parse(message as string)] does with an inbound frame: a
    SyntaxError (also for a binary frame, whose string form is no JSON), or
    the parsed value. *)
Inductive Frame : Type :=
| NonJSON
| JSON (data : json).

(* ================================================================== *)
(** ** The handler monad: room state, sends, exceptions *)
(* ================================================================== *)

Module Party.

Inductive Completion (A : Type) : Type :=
| Normal (a : A)
| Thrown.
Arguments Normal {A} a.
Arguments Thrown {A}.

Definition M (A : Type) : Type := Room -> Completion A * Room * list Sent.

Definition ret {A} (a : A) : M A := fun r => (Normal a, r, []).

Definition bind {A B} (m : M A) (k : A -> M B) : M B :=
  fun r =>
    match m r with
    | (Normal a, r1, out1) =>
        let '(c, r2, out2) := k a r1 in (c, r2, out1 ++ out2)
    | (Thrown, r1, out1) => (Thrown, r1, out1)
    end.

Definition throw {A} : M A := fun r => (Thrown, r, []).

(** [try { body } catch (error) { console.error(...) }] *)
Definition try_catch (body : M unit) : M unit :=
  fun r =>
    match body r with
    | (Normal _, r1, out) => (Normal tt, r1, out)
    | (Thrown, r1, out) => (Normal tt, r1, out)
    end.

Definition gets {A} (f : Room -> A) : M A := fun r => (Normal (f r), r, []).

Definition update_users (f : Map Session -> Map Session) : M unit :=
  fun r => (Normal tt, mkRoom (f (connectedUsers r)) (connections r), []).

Definition when (b : bool) (m : M unit) : M unit := if b then m else ret tt.

Fixpoint forEach {A} (l : list A) (body : A -> M unit) : M unit :=
  match l with
  | [] => ret tt
  | x :: rest => bind (body x) (fun _ => forEach rest body)
  end.

(** [conn.send(JSON.stringify(msg))] *)
Definition send (conn : string) (msg : ServerMsg) : M unit :=
  fun r => (Normal tt, r, [Send conn msg]).

(** [this.getConnections()] *)
Definition getConnections : M (list string) := gets connections.

Definition includes (ids : list string) (id : string) : bool :=
  existsb (String.eqb id) ids.

(** [this.broadcast(JSON.stringify(msg), without)]: one send to every open
    connection whose id is not in [without]. *)
Definition broadcast (msg : ServerMsg) (without : list string) : M unit :=
  bind getConnections (fun conns =>
  forEach (filter (fun c => negb (includes without c)) conns)
          (fun c => send c msg)).

(** [JSON.parse(message as string)] *)
Definition JSON_parse (message : Frame) : M json :=
  match message with
  | NonJSON => throw
  | JSON data => ret data
  end.

(** [data.key]: a TypeError on [null]. *)
Definition member (data : json) (key : string) : M jsval :=
  match data with
  | JNull => throw
  | _ => ret (prop data key)
  end.

Definition run (m : M unit) (r : Room) : Room * list Sent :=
  let '(_, r', out) := m r in (r', out).

End Party.
Import Party.

Notation "x <- m ;; k" := (bind m (fun x => k))
  (at level 61, m at next level, right associativity).
Notation "m ;;; k" := (bind m (fun _ => k))
  (at level 61, right associativity).

(* ================================================================== *)
(** ** The handlers of [ColorPickerServer] *)
(* ================================================================== *)

Module ColorPickerServer.

(** [sendExistingUsers(conn)] *)
Definition sendExistingUsers (conn : string) : M unit :=
  entries <- gets connectedUsers ;;
  forEach entries (fun '(sessionId, user) =>
    when (negb (String.eqb sessionId conn))
      (send conn (UserJoined sessionId (color user)) ;;;
       when (truthy (lastCursorPosition user) && truthy (lastCursorNormal user))
         (send conn (CursorMove sessionId (lastCursorPosition user)
                       (lastCursorNormal user) (color user) undefined)))).

(** [broadcastUserCount()] *)
Definition broadcastUserCount : M unit :=
  conns <- getConnections ;;
  let userCount := length conns in
  broadcast (UserCount userCount) [].

(** [cleanupOldSessions(persistentUserId, currentSessionId)] *)
Definition cleanupOldSessions (pid : jsval) (currentSessionId : string) : M unit :=
  entries <- gets connectedUsers ;;
  let toRemove :=
    map fst
      (filter (fun '(sessionId, user) =>
                 strict_eq (persistentUserId user) pid
                 && negb (String.eqb sessionId currentSessionId))
              entries) in
  forEach toRemove (fun sessionId =>
    update_users (Map_delete sessionId) ;;;
    broadcast (UserDisconnect sessionId) []).

(** [onConnect(conn)]; [userColor] is the string [generateRandomColor()]
    returned for this connection. *)
Definition onConnect (conn : string) (userColor : string) : M unit :=
  update_users (Map_set conn (mkSession (Some (JStr userColor)) undefined undefined undefined)) ;;;
  sendExistingUsers conn ;;;
  send conn (UserJoined conn (Some (JStr userColor))) ;;;
  broadcast (UserJoined conn (Some (JStr userColor))) [conn] ;;;
  broadcastUserCount.

(** The [case] labels of the [switch (data.type)], compared with [===]. *)
Definition is_case (v : jsval) (label : string) : bool :=
  strict_eq v (Some (JStr label)).

(** [onMessage(sender, message)] *)
Definition onMessage (sender : string) (message : Frame) : M unit :=
  try_catch (
    data <- JSON_parse message ;;
    ty <- member data "type" ;;
    if is_case ty "identify" then
      existingUser <- gets (fun r => Map_get sender (connectedUsers r)) ;;
      match existingUser with
      | Some u =>
          pid <- member data "persistentUserId" ;;
          update_users (Map_set sender (with_persistentUserId u pid)) ;;;
          cleanupOldSessions pid sender
      | None => ret tt
      end ;;;
      send sender (UserIdentified sender)
    else if is_case ty "cursor-move" then
      user <- gets (fun r => Map_get sender (connectedUsers r)) ;;
      match user with
      | Some u =>
          position <- member data "position" ;;
          normal <- member data "normal" ;;
          update_users (Map_set sender (with_cursor u position normal)) ;;;
          rgb <- member data "rgb" ;;
          broadcast (CursorMove sender position normal (color u) rgb) [sender]
      | None => ret tt
      end
    else if is_case ty "cursor-leave" then
      broadcast (CursorLeave sender) [sender]
    else if is_case ty "user-color-change" then
      userToUpdate <- gets (fun r => Map_get sender (connectedUsers r)) ;;
      match userToUpdate with
      | Some u =>
          c <- member data "color" ;;
          update_users (Map_set sender (with_color u c)) ;;;
          broadcast (UserColorChange sender c) []
      | None => ret tt
      end
    else if is_case ty "camera-sync" then
      camera <- member data "camera" ;;
      broadcast (CameraSync camera) [sender]
    else ret tt).

(** [onClose(connection)] *)
Definition onClose (connection : string) : M unit :=
  update_users (Map_delete connection) ;;;
  broadcast (UserDisconnect connection) [] ;;;
  broadcastUserCount.

End ColorPickerServer.
Import ColorPickerServer.

(* ================================================================== *)
(** ** The transport: events delivered to the server, one at a time *)
(* ================================================================== *)

(** [Hibernate] is what [static options = { hibernate: true }] allows: while
    no handler runs, the platform discards the server object and keeps the
    sockets; the next event is handled by a newly constructed object. *)
Inductive Event : Type :=
| Connect (conn : string) (userColor : string)
| Message (sender : string) (message : Frame)
| Close (conn : string)
| Hibernate.

Definition open_connection (conn : string) (r : Room) : Room :=
  mkRoom (connectedUsers r) (connections r ++ [conn]).

Definition closed_connection (conn : string) (r : Room) : Room :=
  mkRoom (connectedUsers r)
         (filter (fun c => negb (String.eqb c conn)) (connections r)).

(** The new server object: the field initialiser
    [connectedUsers = new Map()] has run, the open connections are the ones
    the transport kept. *)
Definition hibernated (r : Room) : Room :=
  mkRoom Map_empty (connections r).

(** The transport accepts the socket and then calls [onConnect]; it calls
    [onClose] once the socket is no longer open. *)
Definition step (e : Event) (r : Room) : Room * list Sent :=
  match e with
  | Connect conn userColor => run (onConnect conn userColor) (open_connection conn r)
  | Message sender message => run (onMessage sender message) r
  | Close conn => run (onClose conn) (closed_connection conn r)
  | Hibernate => (hibernated r, [])
  end.

(** What the transport guarantees: a new connection's id is not the id of an
    open connection; messages and closes come from open connections.  The
    server can hibernate between any two events. *)
Definition enabled (e : Event) (r : Room) : bool :=
  match e with
  | Connect conn _ => negb (includes (connections r) conn)
  | Message sender _ => includes (connections r) sender
  | Close conn => includes (connections r) conn
  | Hibernate => true
  end.

Fixpoint exec (events : list Event) (r : Room) : Room :=
  match events with
  | [] => r
  | e :: rest => exec rest (fst (step e r))
  end.

Fixpoint valid (events : list Event) (r : Room) : bool :=
  match events with
  | [] => true
  | e :: rest => enabled e r && valid rest (fst (step e r))
  end.

Definition is_identify (e : Event) : bool :=
  match e with
  | Message _ (JSON data) => is_case (prop data "type") "identify"
  | _ => false
  end.

Definition is_hibernate (e : Event) : bool :=
  match e with
  | Hibernate => true
  | _ => false
  end.

(* ================================================================== *)
(** ** The wire between server and client *)
(* ================================================================== *)

(** [JSON.parse(JSON.stringify(v))] for a value [v] that came out of
    [JSON.parse]: [JSON.stringify] writes a number that is not finite as
    [null] and a negative zero as [0]; everything else comes back as it
    was. *)
Fixpoint reparse (v : json) : json :=
  match v with
  | JNum x =>
      if PrimFloat.is_nan x || PrimFloat.is_infinity x then JNull
      else if PrimFloat.eqb x 0 then JNum 0
      else JNum x
  | JArr items => JArr (map reparse items)
  | JObj fields => JObj (map (fun kv => let '(k, v) := kv in (k, reparse v)) fields)
  | _ => v
  end.

(** A client-supplied value the server copies into an object literal. *)
Definition relay (v : jsval) : jsval := option_map reparse v.

(** A property of the object literal: absent when its value is [undefined]. *)
Definition field (key : string) (v : jsval) : list (string * json) :=
  match v with
  | Some j => [(key, j)]
  | None => []
  end.

(** The JavaScript number of an array length. *)
Definition number_of_nat (n : nat) : float :=
  PrimFloat.of_uint63 (Uint63.of_Z (Z.of_nat n)).

(** What [JSON.parse(event.data)] gives a client for the frame the server
    built with [JSON.stringify] from the object literal [msg]. *)
Definition wire (msg : ServerMsg) : json :=
  match msg with
  | UserJoined sessionId color =>
      JObj (("type", JStr "user-joined") :: ("sessionId", JStr sessionId)
            :: field "color" (relay color))
  | CursorMove sessionId position normal color rgb =>
      JObj (("type", JStr "cursor-move") :: ("sessionId", JStr sessionId)
            :: field "position" (relay position) ++ field "normal" (relay normal)
            ++ field "color" (relay color) ++ field "rgb" (relay rgb))
  | CursorLeave sessionId =>
      JObj [("type", JStr "cursor-leave"); ("sessionId", JStr sessionId)]
  | UserColorChange sessionId color =>
      JObj (("type", JStr "user-color-change") :: ("sessionId", JStr sessionId)
            :: field "color" (relay color))
  | CameraSync camera =>
      JObj (("type", JStr "camera-sync") :: field "camera" (relay camera))
  | UserDisconnect sessionId =>
      JObj [("type", JStr "user-disconnect"); ("sessionId", JStr sessionId)]
  | UserCount count =>
      JObj [("type", JStr "user-count"); ("count", JNum (number_of_nat count))]
  | UserIdentified sessionId =>
      JObj [("type", JStr "user-identified"); ("sessionId", JStr sessionId)]
  end.

(* ================================================================== *)
(** ** The client: [usePartyConnection] and [ColorPickerApp] *)
(* ================================================================== *)

Module Client.

(** Key equality of a JavaScript [Map] (SameValueZero), for keys that come
    from different [JSON.parse] calls. *)
Definition same_value_zero (a b : json) : bool :=
  match a, b with
  | JNull, JNull => true
  | JBool x, JBool y => Bool.eqb x y
  | JNum x, JNum y => PrimFloat.eqb x y || (PrimFloat.is_nan x && PrimFloat.is_nan y)
  | JStr x, JStr y => String.eqb x y
  | _, _ => false
  end.

(** [const newMap = new Map(prev); newMap.set(k, v); return newMap] *)
Fixpoint copy_set (k v : json) (prev : list (json * json)) : list (json * json) :=
  match prev with
  | [] => [(k, v)]
  | (k', v') :: rest =>
      if same_value_zero k' k then (k', v) :: rest else (k', v') :: copy_set k v rest
  end.

(** [const newMap = new Map(prev); newMap.delete(k); return newMap] *)
Fixpoint copy_delete (k : json) (prev : list (json * json)) : list (json * json) :=
  match prev with
  | [] => []
  | (k', v') :: rest =>
      if same_value_zero k' k then rest else (k', v') :: copy_delete k rest
  end.

(** The methods [ColorPickerApp] calls on the visualizer handle. *)
Inductive VisualizerCall : Type :=
| showRemoteCursor (sessionId : json) (position normal color : jsval)
| hideRemoteCursor (sessionId : json)
| removeUser (sessionId : json)
| syncCamera (camera : json).

(** The React state of [usePartyConnection] and [ColorPickerApp], and the
    calls made on the visualizer so far. *)
Record Client : Type := mkClient {
  isConnected : bool;
  userSessionId : option json;
  userCount : float;
  userColors : list (json * json);
  visualizer : list VisualizerCall
}.

Definition new_client : Client := mkClient false None 0 [] [].

Definition setUserColors (f : list (json * json) -> list (json * json))
    (c : Client) : Client :=
  mkClient (isConnected c) (userSessionId c) (userCount c) (f (userColors c))
           (visualizer c).

Definition setUserCount (n : float) (c : Client) : Client :=
  mkClient (isConnected c) (userSessionId c) n (userColors c) (visualizer c).

Definition setUserSessionId (v : option json) (c : Client) : Client :=
  mkClient (isConnected c) v (userCount c) (userColors c) (visualizer c).

Definition setIsConnected (b : bool) (c : Client) : Client :=
  mkClient b (userSessionId c) (userCount c) (userColors c) (visualizer c).

Definition call (v : VisualizerCall) (c : Client) : Client :=
  mkClient (isConnected c) (userSessionId c) (userCount c) (userColors c)
           (visualizer c ++ [v]).

(** The callbacks of [ColorPickerApp]. *)
Definition handleUserJoined (sessionId color : json) : Client -> Client :=
  setUserColors (copy_set sessionId color).

Definition handleCursorMove (sessionId : json) (position normal color : jsval)
    : Client -> Client :=
  call (showRemoteCursor sessionId position normal color).

Definition handleCursorLeave (sessionId : json) : Client -> Client :=
  call (hideRemoteCursor sessionId).

Definition handleUserDisconnect (sessionId : json) (c : Client) : Client :=
  setUserColors (copy_delete sessionId) (call (removeUser sessionId) c).

Definition handleCameraSync (camera : json) : Client -> Client :=
  call (syncCamera camera).

Definition handleUserCountUpdate (count : float) : Client -> Client :=
  setUserCount count.

Definition handleUserColorChange (sessionId color : json) : Client -> Client :=
  setUserColors (copy_set sessionId color).

(** The value of [v] when [v] is truthy. *)
Definition if_truthy (v : jsval) : option json :=
  match v with
  | Some j => if truthy v then Some j else None
  | None => None
  end.

(** [handleMessage(event)], with [event.data] given by its parse. *)
Definition handleMessage (message : Frame) (c : Client) : Client :=
  match message with
  | NonJSON => c
  | JSON JNull => c
  | JSON data =>
      let ty := prop data "type" in
      if is_case ty "cursor-move" then
        match if_truthy (prop data "sessionId") with
        | Some sessionId =>
            handleCursorMove sessionId (prop data "position") (prop data "normal")
              (prop data "color") c
        | None => c
        end
      else if is_case ty "cursor-leave" then
        match if_truthy (prop data "sessionId") with
        | Some sessionId => handleCursorLeave sessionId c
        | None => c
        end
      else if is_case ty "user-joined" then
        match if_truthy (prop data "sessionId"), if_truthy (prop data "color") with
        | Some sessionId, Some color => handleUserJoined sessionId color c
        | _, _ => c
        end
      else if is_case ty "user-disconnect" then
        match if_truthy (prop data "sessionId") with
        | Some sessionId => handleUserDisconnect sessionId c
        | None => c
        end
      else if is_case ty "camera-sync" then
        match if_truthy (prop data "camera") with
        | Some camera => handleCameraSync camera c
        | None => c
        end
      else if is_case ty "user-count" then
        match prop data "count" with
        | Some (JNum count) => handleUserCountUpdate count c
        | _ => c
        end
      else if is_case ty "user-color-change" then
        match if_truthy (prop data "sessionId"), if_truthy (prop data "color") with
        | Some sessionId, Some color => handleUserColorChange sessionId color c
        | _, _ => c
        end
      else if is_case ty "user-identified" then
        match if_truthy (prop data "sessionId") with
        | Some sessionId => setUserSessionId (Some sessionId) c
        | None => c
        end
      else c
  end.

(** [handleOpen()] and [handleClose()] *)
Definition handleOpen : Client -> Client := setIsConnected true.

Definition handleClose (c : Client) : Client :=
  setUserSessionId None (setIsConnected false c).

(** [getPersistentUserId()]: [stored] is what [localStorage.getItem] returns
    ([None] for [null]), [newId] what [crypto.randomUUID()] would return; the
    result is the id and the stored item afterwards. *)
Definition getPersistentUserId (stored : option string) (newId : string)
    : string * option string :=
  match stored with
  | Some id => if negb (String.eqb id "") then (id, stored) else (newId, Some newId)
  | None => (newId, Some newId)
  end.

(** The argument of [sendColorPick]. *)
Record ColorPickEvent : Type := mkPick {
  pick_position : json;
  pick_normal : json;
  pick_color : string;
  pick_rgb : json
}.

(** The senders; [open] is [socket && socket.readyState === WebSocket.OPEN],
    the result the frames handed to [socket.send], as the server parses
    them.  [sendIdentify] is the effect that runs when the socket becomes
    available, with the id [getPersistentUserId()] returned. *)
Definition sendIdentify (open connected : bool) (persistentId : string) : list Frame :=
  if open && connected
  then [JSON (JObj [("type", JStr "identify"); ("persistentUserId", JStr persistentId)])]
  else [].

Definition sendColorPick (open : bool) (event : ColorPickEvent) : list Frame :=
  if open
  then [JSON (JObj [("type", JStr "cursor-move");
                    ("position", reparse (pick_position event));
                    ("normal", reparse (pick_normal event));
                    ("color", JStr (pick_color event));
                    ("rgb", reparse (pick_rgb event))])]
  else [].

Definition sendCursorLeave (open : bool) : list Frame :=
  if open then [JSON (JObj [("type", JStr "cursor-leave")])] else [].

Definition sendCameraChange (open : bool) (event : json) : list Frame :=
  if open
  then [JSON (JObj [("type", JStr "camera-sync"); ("camera", reparse event)])]
  else [].

Definition sendColorChange (open : bool) (color : string) : list Frame :=
  if open
  then [JSON (JObj [("type", JStr "user-color-change"); ("color", JStr color)])]
  else [].

(** [handleColorPick(event)] of [ColorPickerApp] *)
Definition handleColorPick (open : bool) (event : ColorPickEvent) : list Frame :=
  sendColorPick open event ++ sendColorChange open (pick_color event).

End Client.
Import Client.

(* ================================================================== *)
(** ** Vocabulary of the statements *)
(* ================================================================== *)

(** The recipients of a broadcast, in the order the sends happen. *)
Definition recipients (without : list string) (r : Room) : list string :=
  filter (fun c => negb (includes without c)) (connections r).

(** The same message to each of [conns], in order. *)
Definition to_each (conns : list string) (msg : ServerMsg) : list Sent :=
  map (fun c => Send c msg) conns.

(** One roster entry for the session [sessionId], sent to [conn]. *)
Definition roster_entry (replay : Session -> bool) (conn sessionId : string)
    (user : Session) : list Sent :=
  Send conn (UserJoined sessionId (color user))
  :: (if replay user
      then [Send conn (CursorMove sessionId (lastCursorPosition user)
                         (lastCursorNormal user) (color user) undefined)]
      else []).

Definition roster (replay : Session -> bool) (conn : string)
    (entries : Map Session) : list Sent :=
  flat_map (fun e => roster_entry replay conn (fst e) (snd e)) entries.

(** Both cursor fields pass the test of an [if]. *)
Definition cursor_truthy (user : Session) : bool :=
  truthy (lastCursorPosition user) && truthy (lastCursorNormal user).

(** Both cursor fields hold a value (are not [undefined]). *)
Definition cursor_present (user : Session) : bool :=
  match lastCursorPosition user, lastCursorNormal user with
  | Some _, Some _ => true
  | _, _ => false
  end.

(** The sessions an identify with [pid] from [current] evicts, in map order. *)
Definition evicted (pid : jsval) (current : string) (m : Map Session) : list string :=
  map fst
    (filter (fun e => strict_eq (persistentUserId (snd e)) pid
                      && negb (String.eqb (fst e) current)) m).

Definition delete_all (ks : list string) (m : Map Session) : Map Session :=
  fold_left (fun acc k => Map_delete k acc) ks m.

Definition is_user_count (s : Sent) : bool :=
  match payload s with
  | UserCount _ => true
  | _ => false
  end.


(** The [type] values the [switch] has a [case] for. *)
Definition recognised (ty : jsval) : bool :=
  is_case ty "identify" || is_case ty "cursor-move" || is_case ty "cursor-leave"
  || is_case ty "user-color-change" || is_case ty "camera-sync".

(** Representation invariant of a room: one entry per key, one entry per
    open connection, and every session belongs to an open connection. *)
Definition wf (r : Room) : Prop :=
  NoDup (Map_keys (connectedUsers r))
  /\ NoDup (connections r)
  /\ incl (Map_keys (connectedUsers r)) (connections r).

(** What a connect sends before the user count, given which sessions get a
    cursor replay: the roster to the new connection, its own identity, then
    its join to the connections that were open before it.  [r] is the room
    before the connect. *)
Definition connect_sends (replay : Session -> bool) (conn userColor : string)
    (r : Room) : list Sent :=
  roster replay conn (connectedUsers r)
  ++ [Send conn (UserJoined conn (Some (JStr userColor)))]
  ++ to_each (connections r) (UserJoined conn (Some (JStr userColor))).



(** Frames the [switch] has no [case] for, and frames that do not parse. *)
Definition unhandled (message : Frame) : bool :=
  match message with
  | NonJSON => true
  | JSON data => negb (recognised (prop data "type"))
  end.

(** Sample payloads and traces used in the examples. *)
Definition vec (x y z : float) : json :=
  JObj [("x", JNum x); ("y", JNum y); ("z", JNum z)].

Definition cursor_move (position normal : json) (c : string) : json :=
  JObj [("type", JStr "cursor-move"); ("position", position);
        ("normal", normal); ("color", JStr c);
        ("rgb", JObj [("r", JNum 255); ("g", JNum 0); ("b", JNum 0)])].

Definition identify (persistentUserId : string) : json :=
  JObj [("type", JStr "identify"); ("persistentUserId", JStr persistentUserId)].

Definition color_A : string := "hsl(10, 80%, 60%)".
Definition color_B : string := "hsl(200, 90%, 55%)".
Definition color_C : string := "hsl(120, 75%, 65%)".

(** A and B connect. *)
Definition two_users : list Event :=
  [Connect "A" color_A; Connect "B" color_B].

(** Four connections; A has identified as u1 and C as u2. *)
Definition crowd : list Event :=
  two_users
  ++ [Connect "C" color_C; Connect "D" color_A;
      Message "A" (JSON (identify "u1")); Message "C" (JSON (identify "u2"))].

(** The room after [crowd]. *)
Definition crowd_room : Room := Eval vm_compute in exec crowd initial.

(** A and B connect and identify as the same user: B's identify evicts A. *)
Definition duplicate_tab : list Event :=
  two_users ++ [Message "A" (JSON (identify "u1")); Message "B" (JSON (identify "u1"))].

(** A [user-color-change] frame that carries a [color] field (every other
    event passes). *)
Definition carries_color (e : Event) : bool :=
  match e with
  | Message _ (JSON data) =>
      if is_case (prop data "type") "user-color-change"
      then match prop data "color" with Some _ => true | None => false end
      else true
  | _ => true
  end.

(** The colour an event brings to the session of connection [k]: the colour
    generated at [k]'s connect, or the [color] field ([undefined] when there
    is none) of a user-color-change frame that [k] sends. *)
Definition color_event (k : string) (e : Event) : option jsval :=
  match e with
  | Connect conn userColor =>
      if String.eqb conn k then Some (Some (JStr userColor)) else None
  | Message sender (JSON data) =>
      if String.eqb sender k && is_case (prop data "type") "user-color-change"
      then Some (prop data "color")
      else None
  | _ => None
  end.

(** The colour of the latest colour event of [k] in [events]; [acc] when
    there is none. *)
Fixpoint latest_color (k : string) (events : list Event) (acc : option jsval)
    : option jsval :=
  match events with
  | [] => acc
  | e :: rest =>
      latest_color k rest
        (match color_event k e with
         | Some c => Some c
         | None => acc
         end)
  end.



(** The room after [duplicate_tab]: A's connection is open, its session gone. *)
Definition evicted_room : Room := Eval vm_compute in exec duplicate_tab initial.

(** Every session of the table has a colour for which [Q] holds. *)
Definition colors_ok (Q : jsval -> Prop) (m : Map Session) : Prop :=
  forall k u, In (k, u) m -> Q (color u).

(** The colour an event brings into the table, if any, satisfies [Q]. *)
Definition event_color_ok (Q : jsval -> Prop) (e : Event) : Prop :=
  match e with
  | Connect _ userColor => Q (Some (JStr userColor))
  | Message _ (JSON data) =>
      is_case (prop data "type") "user-color-change" = true ->
      Q (prop data "color")
  | _ => True
  end.

(* ================================================================== *)
(** ** The picked colour: [updateColorDisplay] of the visualizer *)
(* ================================================================== *)

Module Visualizer.

(** [n.toString(16)] for an integer [n]. *)
Definition toString16 (n : Z) : string :=
  match n with
  | Z0 => "0"
  | Zpos p => HexString.Raw.of_pos p ""
  | Zneg p => "-" ++ HexString.Raw.of_pos p ""
  end.

(** [toHex(n)] *)
Definition toHex (n : Z) : string :=
  let hex := toString16 n in
  if Nat.eqb (String.length hex) 1 then "0" ++ hex else hex.

(** [Math.max(0, Math.min(255, r))] *)
Definition clamped (r : Z) : Z := Z.max 0 (Z.min 255 r).

(** [hexColor], from the three rounded components [r], [g], [b] (the values
    of [Math.round((point.x + 0.5) * 255)] and its siblings). *)
Definition hexColor (r g b : Z) : string :=
  "#" ++ toHex (clamped r) ++ toHex (clamped g) ++ toHex (clamped b).

End Visualizer.
Import Visualizer.

(* ================================================================== *)
(** ** Server and clients together *)
(* ================================================================== *)

(** The room and, for every open connection, the client behind it.  A
    connection belongs to a freshly loaded page: its client starts from the
    initial React state.  A hibernation of the server leaves the clients as
    they are. *)
Record World : Type := mkWorld {
  room : Room;
  clients : Map Client
}.

Definition empty_world : World := mkWorld initial Map_empty.

(** Each frame, in the order sent, is handled by the client of the
    connection it was sent to. *)
Definition deliver (out : list Sent) (cs : Map Client) : Map Client :=
  fold_left
    (fun cs s =>
       match Map_get (recipient s) cs with
       | Some c =>
           Map_set (recipient s) (handleMessage (JSON (wire (payload s))) c) cs
       | None => cs
       end)
    out cs.

Definition arrive (e : Event) (cs : Map Client) : Map Client :=
  match e with
  | Connect conn _ => Map_set conn (handleOpen new_client) cs
  | Message _ _ => cs
  | Close conn => Map_delete conn cs
  | Hibernate => cs
  end.

Definition world_step (e : Event) (w : World) : World :=
  let '(r', out) := step e (room w) in
  mkWorld r' (deliver out (arrive e (clients w))).

Fixpoint world_exec (events : list Event) (w : World) : World :=
  match events with
  | [] => w
  | e :: rest => world_exec rest (world_step e w)
  end.

(** Events as this client and this server produce them: connection ids and
    generated colours are not empty, and a user-color-change carries a
    non-empty string. *)
Definition well_behaved (e : Event) : bool :=
  match e with
  | Connect conn userColor =>
      negb (String.eqb conn "") && negb (String.eqb userColor "")
  | Message _ (JSON data) =>
      if is_case (prop data "type") "user-color-change"
      then match prop data "color" with
           | Some (JStr c) => negb (String.eqb c "")
           | _ => false
           end
      else true
  | _ => true
  end.

(** The colour list a client shows, and the one the session table holds. *)
Definition shown (c : Client) : list (json * jsval) :=
  map (fun kv => (fst kv, Some (snd kv))) (userColors c).

Definition table_view (m : Map Session) : list (json * jsval) :=
  map (fun e => (JStr (fst e), color (snd e))) m.

(** The frames of [out] addressed to [c], in order. *)
Definition inbox (c : string) (out : list Sent) : list ServerMsg :=
  map payload (filter (fun s => String.eqb (recipient s) c) out).

Definition receive (msg : ServerMsg) (c : Client) : Client :=
  handleMessage (JSON (wire msg)) c.

Definition receive_all (msgs : list ServerMsg) (c : Client) : Client :=
  fold_left (fun c msg => receive msg c) msgs c.

(** A colour that is a non-empty string. *)
Definition color_string (v : jsval) : Prop :=
  exists c, v = Some (JStr c) /\ c <> "".

(** The client's colour list, entry by entry, is the session table's. *)
Definition mirrors (uc : list (json * json)) (m : Map Session) : Prop :=
  map (fun kv => (fst kv, Some (snd kv))) uc = table_view m.

(** What holds of the client of connection [c] between two events.  Its
    colour list is the table's as long as the server has not hibernated
    ([whole]): a hibernation empties the table and tells no client. *)
Definition client_ok (whole : bool) (r : Room) (c : string) (cl : Client) : Prop :=
  (whole = true -> mirrors (userColors cl) (connectedUsers r))
  /\ userCount cl = number_of_nat (length (connections r))
  /\ (userSessionId cl = None \/ userSessionId cl = Some (JStr c)).

(** What holds of the room and its clients between two events. *)
Definition world_ok (whole : bool) (w : World) : Prop :=
  wf (room w)
  /\ colors_ok color_string (connectedUsers (room w))
  /\ (forall c, In c (connections (room w)) -> c <> "")
  /\ Map_keys (clients w) = connections (room w)
  /\ (forall c cl, Map_get c (clients w) = Some cl ->
        client_ok whole (room w) c cl).

(** A frame that leaves the three fields of the client alone. *)
Definition neutral (msg : ServerMsg) : bool :=
  match msg with
  | CursorMove _ _ _ _ _ | CursorLeave _ | CameraSync _ => true
  | _ => false
  end.

(** The frames a sequence of events makes the server send, in order. *)
Fixpoint outputs (events : list Event) (r : Room) : list Sent :=
  match events with
  | [] => []
  | e :: rest => snd (step e r) ++ outputs rest (fst (step e r))
  end.

(** The [type] values the client's [switch] has a [case] for. *)
Definition client_recognised (ty : jsval) : bool :=
  is_case ty "cursor-move" || is_case ty "cursor-leave" || is_case ty "user-joined"
  || is_case ty "user-disconnect" || is_case ty "camera-sync"
  || is_case ty "user-count" || is_case ty "user-color-change"
  || is_case ty "user-identified".

(** A picks a colour, both tabs identify as the same user, then C joins. *)
Definition busy_session : list Event :=
  [Connect "A" "hsl(10, 80%, 60%)"; Connect "B" "hsl(200, 90%, 55%)";
   Message "A" (JSON (JObj [("type", JStr "cursor-move");
                            ("position", JObj [("x", JNum 0.5); ("y", JNum 0.25); ("z", JNum 0.125)]);
                            ("normal", JObj [("x", JNum 0); ("y", JNum 0); ("z", JNum 1)]);
                            ("color", JStr "#ff8800")]));
   Message "A" (JSON (JObj [("type", JStr "user-color-change"); ("color", JStr "#ff8800")]));
   Message "A" (JSON (JObj [("type", JStr "identify"); ("persistentUserId", JStr "u1")]));
   Message "B" (JSON (JObj [("type", JStr "identify"); ("persistentUserId", JStr "u1")]));
   Connect "C" "hsl(120, 75%, 65%)"].

(* ================================================================== *)
(** ** The ordered map *)
(* ================================================================== *)

Section MapFacts.
Context {V : Type}.
Implicit Types (m : Map V) (k : string) (v : V).

Lemma Map_get_set_same k v m : Map_get k (Map_set k v m) = Some v.
Proof.
  induction m as [|[k' v'] m IH]; simpl.
  - now rewrite String.eqb_refl.
  - destruct (String.eqb k' k) eqn:E; simpl.
    + now rewrite String.eqb_refl.
    + now rewrite E.
Qed.

Lemma Map_get_set_other k k' v m :
  k' <> k -> Map_get k' (Map_set k v m) = Map_get k' m.
Proof.
  intros Hne. induction m as [|[k0 v0] m IH]; simpl.
  - apply String.eqb_neq in Hne. rewrite String.eqb_sym. now rewrite Hne.
  - destruct (String.eqb k0 k) eqn:E; simpl.
    + apply String.eqb_eq in E. subst k0.
      assert (String.eqb k k' = false) as -> by (apply String.eqb_neq; congruence).
      reflexivity.
    + now rewrite IH.
Qed.

Lemma Map_get_delete_other k k' m :
  k' <> k -> Map_get k' (Map_delete k m) = Map_get k' m.
Proof.
  intros Hne. induction m as [|[k0 v0] m IH]; simpl; [reflexivity|].
  destruct (String.eqb k0 k) eqn:E; simpl.
  - apply String.eqb_eq in E. subst k0.
    assert (String.eqb k k' = false) as -> by (apply String.eqb_neq; congruence).
    reflexivity.
  - now rewrite IH.
Qed.

Lemma Map_get_None k m : Map_get k m = None <-> ~ In k (Map_keys m).
Proof.
  induction m as [|[k0 v0] m IH]; simpl; [tauto|].
  destruct (String.eqb k0 k) eqn:E.
  - apply String.eqb_eq in E. split; [discriminate | tauto].
  - apply String.eqb_neq in E. rewrite IH. tauto.
Qed.

Lemma Map_get_Some_In k v m : Map_get k m = Some v -> In k (Map_keys m).
Proof.
  intros H. destruct (in_dec string_dec k (Map_keys m)) as [|Hn]; [assumption|].
  apply Map_get_None in Hn. congruence.
Qed.

Lemma Map_get_In k v m : Map_get k m = Some v -> In (k, v) m.
Proof.
  induction m as [|[k0 v0] m IH]; simpl; [discriminate|].
  destruct (String.eqb k0 k) eqn:E.
  - apply String.eqb_eq in E. intros [= ->]. left. now subst.
  - auto.
Qed.

Lemma Map_set_present k v m :
  In k (Map_keys m) -> Map_keys (Map_set k v m) = Map_keys m.
Proof.
  induction m as [|[k0 v0] m IH]; simpl; [tauto|].
  destruct (String.eqb k0 k) eqn:E; simpl.
  - apply String.eqb_eq in E. now subst.
  - apply String.eqb_neq in E. intros [?|Hin]; [contradiction|].
    now rewrite IH.
Qed.

Lemma Map_set_absent k v m :
  ~ In k (Map_keys m) -> Map_set k v m = m ++ [(k, v)].
Proof.
  induction m as [|[k0 v0] m IH]; simpl; [reflexivity|].
  intros Hn. destruct (String.eqb k0 k) eqn:E.
  - apply String.eqb_eq in E. tauto.
  - rewrite IH by tauto. reflexivity.
Qed.

Lemma Map_delete_keys k m :
  NoDup (Map_keys m) ->
  Map_keys (Map_delete k m)
  = filter (fun c => negb (String.eqb c k)) (Map_keys m).
Proof.
  induction m as [|[k0 v0] m IH]; simpl; [reflexivity|].
  intros Hnd. inversion Hnd as [|? ? Hnotin Hnd']; subst.
  destruct (String.eqb k0 k) eqn:E; simpl.
  - apply String.eqb_eq in E. subst k0.
    clear IH. symmetry. apply forallb_filter_id.
    apply forallb_forall. intros c Hc.
    apply negb_true_iff, String.eqb_neq. intros ->. contradiction.
  - now rewrite IH.
Qed.

Lemma Map_delete_incl k k' m :
  In k' (Map_keys (Map_delete k m)) -> In k' (Map_keys m).
Proof.
  induction m as [|[k0 v0] m IH]; simpl; [tauto|].
  destruct (String.eqb k0 k); simpl; tauto.
Qed.

Lemma Map_delete_NoDup k m :
  NoDup (Map_keys m) -> NoDup (Map_keys (Map_delete k m)).
Proof.
  intros Hnd. rewrite Map_delete_keys by assumption.
  now apply NoDup_filter.
Qed.

Lemma Map_delete_gone k m :
  NoDup (Map_keys m) -> Map_get k (Map_delete k m) = None.
Proof.
  intros Hnd. apply Map_get_None. rewrite Map_delete_keys by assumption.
  rewrite filter_In, String.eqb_refl. simpl. intros [_ ?]. discriminate.
Qed.
End MapFacts.

(* ================================================================== *)
(** ** Running the transport primitives *)
(* ================================================================== *)

Lemma includes_In ids id : includes ids id = true <-> In id ids.
Proof.
  unfold includes. rewrite existsb_exists. split.
  - intros (x & Hx & E). apply String.eqb_eq in E. now subst.
  - intros H. exists id. split; [assumption | apply String.eqb_refl].
Qed.

Lemma includes_not_In ids id : includes ids id = false <-> ~ In id ids.
Proof.
  rewrite <- includes_In. destruct (includes ids id); split; congruence.
Qed.

Lemma forEach_send (l : list string) msg r :
  forEach l (fun c => send c msg) r = (Normal tt, r, map (fun c => Send c msg) l).
Proof.
  induction l as [|c l IH]; simpl; [reflexivity|].
  unfold bind, send at 1. rewrite IH. reflexivity.
Qed.

Lemma broadcast_eq msg without r :
  broadcast msg without r = (Normal tt, r, to_each (recipients without r) msg).
Proof.
  unfold broadcast, bind, getConnections, gets. rewrite forEach_send. reflexivity.
Qed.

Lemma recipients_all r : recipients [] r = connections r.
Proof.
  unfold recipients. apply forallb_filter_id. apply forallb_forall. reflexivity.
Qed.

Lemma recipients_without_one c r :
  recipients [c] r = filter (fun x => negb (String.eqb x c)) (connections r).
Proof.
  unfold recipients, includes. apply filter_ext. intros x. simpl.
  now rewrite orb_false_r.
Qed.

Lemma broadcastUserCount_eq r :
  broadcastUserCount r
  = (Normal tt, r, to_each (connections r) (UserCount (length (connections r)))).
Proof.
  unfold broadcastUserCount, bind, getConnections, gets.
  rewrite broadcast_eq, recipients_all. reflexivity.
Qed.

Lemma forEach_stateless {A} (body : A -> M unit) (out : A -> list Sent) l r :
  (forall x, body x r = (Normal tt, r, out x)) ->
  forEach l body r = (Normal tt, r, flat_map out l).
Proof.
  intros Hbody. induction l as [|x l IH]; simpl; [reflexivity|].
  unfold bind. rewrite Hbody, IH. reflexivity.
Qed.

Lemma flat_map_filter {A B} (p : A -> bool) (g : A -> list B) l :
  flat_map (fun x => if p x then g x else []) l = flat_map g (filter p l).
Proof.
  induction l as [|x l IH]; simpl; [reflexivity|].
  destruct (p x); simpl; now rewrite IH.
Qed.

Lemma forEach_roster conn (entries : Map Session) r :
  forEach entries (fun '(sessionId, user) =>
    when (negb (String.eqb sessionId conn))
      (send conn (UserJoined sessionId (color user)) ;;;
       when (truthy (lastCursorPosition user) && truthy (lastCursorNormal user))
         (send conn (CursorMove sessionId (lastCursorPosition user)
                       (lastCursorNormal user) (color user) undefined)))) r
  = (Normal tt, r,
     roster cursor_truthy conn
       (filter (fun e => negb (String.eqb (fst e) conn)) entries)).
Proof.
  unfold roster. rewrite <- flat_map_filter.
  apply forEach_stateless. intros [k u]. simpl fst; simpl snd.
  unfold when, bind, send, ret, roster_entry, cursor_truthy.
  destruct (negb (String.eqb k conn)); [|reflexivity].
  destruct (truthy (lastCursorPosition u) && truthy (lastCursorNormal u));
    reflexivity.
Qed.

Lemma sendExistingUsers_eq conn r :
  sendExistingUsers conn r
  = (Normal tt, r,
     roster cursor_truthy conn
       (filter (fun e => negb (String.eqb (fst e) conn)) (connectedUsers r))).
Proof.
  unfold sendExistingUsers, bind at 1, gets. rewrite forEach_roster. reflexivity.
Qed.

Lemma forEach_evict (ks : list string) r :
  forEach ks (fun sessionId =>
      update_users (Map_delete sessionId) ;;;
      broadcast (UserDisconnect sessionId) []) r
  = (Normal tt,
     mkRoom (delete_all ks (connectedUsers r)) (connections r),
     flat_map (fun k => to_each (connections r) (UserDisconnect k)) ks).
Proof.
  revert r. induction ks as [|k ks IH]; intros r.
  - destruct r. reflexivity.
  - simpl forEach. unfold bind at 1. unfold bind at 1, update_users at 1.
    rewrite broadcast_eq, recipients_all. rewrite IH. reflexivity.
Qed.

Lemma cleanupOldSessions_eq pid current r :
  cleanupOldSessions pid current r
  = (Normal tt,
     mkRoom (delete_all (evicted pid current (connectedUsers r)) (connectedUsers r))
            (connections r),
     flat_map (fun k => to_each (connections r) (UserDisconnect k))
              (evicted pid current (connectedUsers r))).
Proof.
  unfold cleanupOldSessions, bind at 1, gets.
  replace (map fst (filter _ (connectedUsers r)))
    with (evicted pid current (connectedUsers r)).
  - rewrite forEach_evict. reflexivity.
  - unfold evicted. f_equal. apply filter_ext. now intros [k u].
Qed.

Lemma onConnect_eq conn userColor r :
  let me := mkSession (Some (JStr userColor)) undefined undefined undefined in
  let users := Map_set conn me (connectedUsers r) in
  onConnect conn userColor r
  = (Normal tt, mkRoom users (connections r),
     roster cursor_truthy conn
       (filter (fun e => negb (String.eqb (fst e) conn)) users)
     ++ [Send conn (UserJoined conn (Some (JStr userColor)))]
     ++ to_each (recipients [conn] r) (UserJoined conn (Some (JStr userColor)))
     ++ to_each (connections r) (UserCount (length (connections r)))).
Proof.
  intros me users. unfold onConnect, bind at 1, update_users at 1.
  unfold bind at 1. rewrite sendExistingUsers_eq.
  unfold bind at 1, send at 1. unfold bind at 1. rewrite broadcast_eq.
  rewrite broadcastUserCount_eq. reflexivity.
Qed.

Lemma onClose_eq conn r :
  onClose conn r
  = (Normal tt, mkRoom (Map_delete conn (connectedUsers r)) (connections r),
     to_each (connections r) (UserDisconnect conn)
     ++ to_each (connections r) (UserCount (length (connections r)))).
Proof.
  unfold onClose, bind at 1, update_users at 1. unfold bind at 1.
  rewrite broadcast_eq, recipients_all, broadcastUserCount_eq. reflexivity.
Qed.

(* ================================================================== *)
(** ** [onMessage], case by case *)
(* ================================================================== *)

Lemma is_case_true ty label : is_case ty label = true -> ty = Some (JStr label).
Proof.
  unfold is_case, strict_eq. destruct ty as [[]|]; try discriminate.
  intros H. apply String.eqb_eq in H. now subst.
Qed.

Ltac enter_case data Hty :=
  apply is_case_true in Hty; destruct data; try discriminate Hty;
  unfold onMessage, try_catch, bind, JSON_parse, member, ret, gets, update_users;
  rewrite Hty;
  cbn -[broadcast cleanupOldSessions Map_set Map_get prop].

Ltac finish_case :=
  cbn -[broadcast cleanupOldSessions Map_set Map_get prop];
  rewrite ?broadcast_eq, ?cleanupOldSessions_eq;
  cbn -[Map_set Map_get prop evicted delete_all];
  rewrite ?app_nil_r; reflexivity.

Lemma onMessage_nonjson sender r :
  onMessage sender NonJSON r = (Normal tt, r, []).
Proof. reflexivity. Qed.

Lemma onMessage_unrecognised sender data r :
  recognised (prop data "type") = false ->
  onMessage sender (JSON data) r = (Normal tt, r, []).
Proof.
  unfold recognised. intros H.
  repeat (apply orb_false_elim in H; destruct H as [H ?]).
  destruct data; try reflexivity.
  unfold onMessage, try_catch, bind, JSON_parse, member, ret.
  cbn -[is_case prop].
  repeat match goal with E : is_case _ _ = false |- _ => rewrite E; clear E end.
  reflexivity.
Qed.

Lemma onMessage_identify sender data u r :
  is_case (prop data "type") "identify" = true ->
  Map_get sender (connectedUsers r) = Some u ->
  let pid := prop data "persistentUserId" in
  let users := Map_set sender (with_persistentUserId u pid) (connectedUsers r) in
  onMessage sender (JSON data) r
  = (Normal tt,
     mkRoom (delete_all (evicted pid sender users) users) (connections r),
     flat_map (fun k => to_each (connections r) (UserDisconnect k))
              (evicted pid sender users)
     ++ [Send sender (UserIdentified sender)]).
Proof.
  intros Hty Hu pid users. subst pid users. enter_case data Hty.
  rewrite Hu. finish_case.
Qed.

Lemma onMessage_identify_no_session sender data r :
  is_case (prop data "type") "identify" = true ->
  Map_get sender (connectedUsers r) = None ->
  onMessage sender (JSON data) r
  = (Normal tt, r, [Send sender (UserIdentified sender)]).
Proof.
  intros Hty Hu. enter_case data Hty. rewrite Hu. finish_case.
Qed.

Lemma onMessage_cursor_move sender data u r :
  is_case (prop data "type") "cursor-move" = true ->
  Map_get sender (connectedUsers r) = Some u ->
  onMessage sender (JSON data) r
  = (Normal tt,
     mkRoom (Map_set sender
               (with_cursor u (prop data "position") (prop data "normal"))
               (connectedUsers r))
            (connections r),
     to_each (recipients [sender] r)
       (CursorMove sender (prop data "position") (prop data "normal")
          (color u) (prop data "rgb"))).
Proof.
  intros Hty Hu. enter_case data Hty. rewrite Hu. finish_case.
Qed.

Lemma onMessage_cursor_move_no_session sender data r :
  is_case (prop data "type") "cursor-move" = true ->
  Map_get sender (connectedUsers r) = None ->
  onMessage sender (JSON data) r = (Normal tt, r, []).
Proof.
  intros Hty Hu. enter_case data Hty. rewrite Hu. finish_case.
Qed.

Lemma onMessage_cursor_leave sender data r :
  is_case (prop data "type") "cursor-leave" = true ->
  onMessage sender (JSON data) r
  = (Normal tt, r, to_each (recipients [sender] r) (CursorLeave sender)).
Proof.
  intros Hty. enter_case data Hty. finish_case.
Qed.

Lemma onMessage_color_change sender data u r :
  is_case (prop data "type") "user-color-change" = true ->
  Map_get sender (connectedUsers r) = Some u ->
  onMessage sender (JSON data) r
  = (Normal tt,
     mkRoom (Map_set sender (with_color u (prop data "color")) (connectedUsers r))
            (connections r),
     to_each (connections r) (UserColorChange sender (prop data "color"))).
Proof.
  intros Hty Hu. enter_case data Hty. rewrite Hu.
  cbn -[broadcast Map_set Map_get prop]. rewrite broadcast_eq, recipients_all.
  reflexivity.
Qed.

Lemma onMessage_color_change_no_session sender data r :
  is_case (prop data "type") "user-color-change" = true ->
  Map_get sender (connectedUsers r) = None ->
  onMessage sender (JSON data) r = (Normal tt, r, []).
Proof.
  intros Hty Hu. enter_case data Hty. rewrite Hu. finish_case.
Qed.

Lemma onMessage_camera_sync sender data r :
  is_case (prop data "type") "camera-sync" = true ->
  onMessage sender (JSON data) r
  = (Normal tt, r,
     to_each (recipients [sender] r) (CameraSync (prop data "camera"))).
Proof.
  intros Hty. enter_case data Hty. finish_case.
Qed.

(** Splits on the frame, on the [case] taken and on whether the sender has a
    session, and rewrites [onMessage] to its result in each branch. *)
Ltac message_cases sender message r :=
  let data := fresh "data" in
  let Hid := fresh "Hid" in let Hmv := fresh "Hmv" in let Hlv := fresh "Hlv" in
  let Hcc := fresh "Hcc" in let Hcs := fresh "Hcs" in let Hu := fresh "Hu" in
  destruct message as [|data];
  [ rewrite onMessage_nonjson
  | destruct (is_case (prop data "type") "identify") eqn:Hid;
    [ destruct (Map_get sender (connectedUsers r)) eqn:Hu;
      [ rewrite (onMessage_identify _ _ _ _ Hid Hu)
      | rewrite (onMessage_identify_no_session _ _ _ Hid Hu) ]
    | destruct (is_case (prop data "type") "cursor-move") eqn:Hmv;
      [ destruct (Map_get sender (connectedUsers r)) eqn:Hu;
        [ rewrite (onMessage_cursor_move _ _ _ _ Hmv Hu)
        | rewrite (onMessage_cursor_move_no_session _ _ _ Hmv Hu) ]
      | destruct (is_case (prop data "type") "cursor-leave") eqn:Hlv;
        [ rewrite (onMessage_cursor_leave _ _ _ Hlv)
        | destruct (is_case (prop data "type") "user-color-change") eqn:Hcc;
          [ destruct (Map_get sender (connectedUsers r)) eqn:Hu;
            [ rewrite (onMessage_color_change _ _ _ _ Hcc Hu)
            | rewrite (onMessage_color_change_no_session _ _ _ Hcc Hu) ]
          | destruct (is_case (prop data "type") "camera-sync") eqn:Hcs;
            [ rewrite (onMessage_camera_sync _ _ _ Hcs)
            | rewrite (onMessage_unrecognised sender data r)
                by (unfold recognised; rewrite Hid, Hmv, Hlv, Hcc, Hcs;
                    reflexivity) ] ] ] ] ] ].

Lemma in_to_each s conns msg :
  In s (to_each conns msg) <-> In (recipient s) conns /\ payload s = msg.
Proof.
  unfold to_each. rewrite in_map_iff. destruct s as [to m]. simpl. split.
  - intros (c & [= -> ->] & Hc). auto.
  - intros [Hc ->]. now exists to.
Qed.

Lemma in_evictions s conns ks :
  In s (flat_map (fun k => to_each conns (UserDisconnect k)) ks)
  <-> In (recipient s) conns /\ exists k, In k ks /\ payload s = UserDisconnect k.
Proof.
  rewrite in_flat_map. split.
  - intros (k & Hk & Hs). apply in_to_each in Hs. destruct Hs. eauto.
  - intros (Hc & k & Hk & Hp). exists k. split; [assumption|].
    apply in_to_each. auto.
Qed.

(** No handler of [onMessage] closes or opens a connection. *)
Lemma onMessage_connections sender message r :
  connections (fst (run (onMessage sender message) r)) = connections r.
Proof.
  unfold run. message_cases sender message r; reflexivity.
Qed.

(** [onMessage] never sends a [user-count]. *)
Lemma onMessage_no_user_count sender message r s :
  In s (snd (run (onMessage sender message) r)) -> is_user_count s = false.
Proof.
  unfold run, is_user_count.
  message_cases sender message r; cbn [snd];
    rewrite ?in_app_iff, ?in_evictions, ?in_to_each; simpl In;
    intros H; decompose [and or ex] H; subst; try contradiction;
    try match goal with E : payload _ = _ |- _ => rewrite E end; reflexivity.
Qed.

Lemma delete_all_incl ks (m : Map Session) k :
  In k (Map_keys (delete_all ks m)) -> In k (Map_keys m).
Proof.
  unfold delete_all. revert m. induction ks as [|k0 ks IH]; intros m; simpl.
  - auto.
  - intros H. apply IH in H. eapply Map_delete_incl; eassumption.
Qed.

Lemma delete_all_NoDup ks (m : Map Session) :
  NoDup (Map_keys m) -> NoDup (Map_keys (delete_all ks m)).
Proof.
  unfold delete_all. revert m. induction ks as [|k0 ks IH]; intros m; simpl.
  - auto.
  - intros H. apply IH. now apply Map_delete_NoDup.
Qed.

Lemma onMessage_wf sender message r :
  wf r -> wf (fst (run (onMessage sender message) r)).
Proof.
  unfold run, wf. intros (Hk & Hc & Hi).
  message_cases sender message r; cbn [fst connectedUsers connections];
    try (split; [|split]; assumption).
  - split; [|split; [assumption|]].
    + apply delete_all_NoDup. erewrite Map_set_present; eauto using Map_get_Some_In.
    + intros k Hin. apply delete_all_incl in Hin.
      erewrite Map_set_present in Hin; eauto using Map_get_Some_In.
  - erewrite Map_set_present; eauto using Map_get_Some_In.
  - erewrite Map_set_present; eauto using Map_get_Some_In.
Qed.

Lemma initial_wf : wf initial.
Proof. repeat split; try constructor. intros k []. Qed.

Lemma step_wf e r : wf r -> enabled e r = true -> wf (fst (step e r)).
Proof.
  intros Hwf Hen. destruct e as [conn c | sender message | conn |]; simpl step.
  - unfold run. rewrite onConnect_eq. cbn [fst]. simpl in Hen.
    apply negb_true_iff, includes_not_In in Hen.
    destruct Hwf as (Hk & Hc & Hi).
    assert (Hfresh : ~ In conn (Map_keys (connectedUsers r))) by (intros H; auto).
    unfold wf. cbn [connectedUsers connections open_connection].
    rewrite Map_set_absent by assumption.
    unfold Map_keys. rewrite map_app. simpl map. fold (Map_keys (connectedUsers r)).
    split; [|split].
    + apply NoDup_app; [assumption | apply NoDup_cons; [intros [] | apply NoDup_nil] |].
      intros k Hin [->|[]]. contradiction.
    + apply NoDup_app; [assumption | apply NoDup_cons; [intros [] | apply NoDup_nil] |].
      intros k Hin [->|[]]. contradiction.
    + intros k Hin. apply in_app_iff in Hin. apply in_app_iff.
      destruct Hin; [left; auto | right; assumption].
  - now apply onMessage_wf.
  - unfold run. rewrite onClose_eq. cbn [fst].
    destruct Hwf as (Hk & Hc & Hi).
    unfold wf. cbn [connectedUsers connections closed_connection].
    rewrite Map_delete_keys by assumption.
    split; [|split]; try now apply NoDup_filter.
    intros k Hin. apply filter_In in Hin. apply filter_In.
    destruct Hin; auto.
  - destruct Hwf as (Hk & Hc & Hi). unfold wf.
    cbn [fst hibernated connectedUsers connections].
    split; [apply NoDup_nil | split; [assumption | intros k []]].
Qed.

Lemma exec_wf events r : wf r -> valid events r = true -> wf (exec events r).
Proof.
  revert r. induction events as [|e events IH]; intros r Hwf Hv; simpl in *.
  - assumption.
  - apply andb_true_iff in Hv. destruct Hv. apply IH; [now apply step_wf | assumption].
Qed.

Lemma exec_app events1 events2 r :
  exec (events1 ++ events2) r = exec events2 (exec events1 r).
Proof.
  revert r. induction events1 as [|e events1 IH]; intros r; simpl; auto.
Qed.

Lemma valid_app events1 events2 r :
  valid (events1 ++ events2) r
  = valid events1 r && valid events2 (exec events1 r).
Proof.
  revert r. induction events1 as [|e events1 IH]; intros r; simpl.
  - reflexivity.
  - rewrite IH. now rewrite andb_assoc.
Qed.

(* ================================================================== *)
(** ** Connect *)
(* ================================================================== *)

Lemma roster_no_user_count replay conn entries s :
  In s (roster replay conn entries) -> is_user_count s = false.
Proof.
  unfold roster, roster_entry. rewrite in_flat_map. intros ([k u] & _ & Hs).
  simpl in Hs. destruct (replay u); simpl in Hs;
    decompose [or] Hs; subst; try contradiction; reflexivity.
Qed.


Lemma filter_others (m : Map Session) conn (me : Session) :
  ~ In conn (Map_keys m) ->
  filter (fun e => negb (String.eqb (fst e) conn)) (m ++ [(conn, me)]) = m.
Proof.
  intros Hn. rewrite filter_app. simpl. rewrite String.eqb_refl. simpl.
  rewrite app_nil_r. apply forallb_filter_id. apply forallb_forall.
  intros [k u] Hin. simpl. apply negb_true_iff, String.eqb_neq. intros ->.
  apply Hn. unfold Map_keys. now apply (in_map fst) in Hin.
Qed.

Lemma recipients_fresh conn r :
  ~ In conn (connections r) ->
  recipients [conn] (open_connection conn r) = connections r.
Proof.
  intros Hn. rewrite recipients_without_one. simpl connections.
  rewrite filter_app. simpl. rewrite String.eqb_refl. simpl. rewrite app_nil_r.
  apply forallb_filter_id. apply forallb_forall. intros c Hc.
  apply negb_true_iff, String.eqb_neq. intros ->. contradiction.
Qed.

(** A connect in a well-formed room, for an id no open connection has. *)
Lemma step_connect conn userColor r :
  wf r -> ~ In conn (connections r) ->
  snd (step (Connect conn userColor) r)
  = connect_sends cursor_truthy conn userColor r
    ++ to_each (connections r ++ [conn]) (UserCount (S (length (connections r)))).
Proof.
  intros (Hk & Hc & Hi) Hn. simpl step. unfold run. rewrite onConnect_eq.
  cbn [snd]. unfold connect_sends.
  assert (Hfresh : ~ In conn (Map_keys (connectedUsers r))) by (intros H; auto).
  rewrite recipients_fresh by assumption.
  unfold open_connection. cbn [connectedUsers connections].
  rewrite Map_set_absent by assumption. rewrite filter_others by assumption.
  rewrite length_app, Nat.add_comm. simpl length.
  now rewrite <- !app_assoc.
Qed.

(** The session of a new connection is in the table, with the generated
    colour, before [onConnect] sends anything. *)
Lemma connect_assigns_color conn userColor r :
  Map_get conn (connectedUsers (fst (step (Connect conn userColor) r)))
  = Some (mkSession (Some (JStr userColor)) undefined undefined undefined).
Proof.
  simpl step. unfold run. rewrite onConnect_eq. cbn [fst connectedUsers].
  apply Map_get_set_same.
Qed.

(** C1, as stated, fails: a session whose stored cursor position is the
    number 0 has both cursor fields present, yet a later joiner gets no
    cursor-move replay for it. *)
Lemma connect_replay_counterexample :
  let events :=
    [Connect "A" color_A;
     Message "A" (JSON (cursor_move (JNum 0) (vec 0 0 1) "red"))] in
  let r := exec events initial in
  valid (events ++ [Connect "B" color_B]) initial = true
  /\ (exists u, Map_get "A" (connectedUsers r) = Some u
                /\ cursor_present u = true)
  /\ ~ (exists rest,
          snd (step (Connect "B" color_B) r)
          = connect_sends cursor_present "B" color_B r ++ rest).
Proof.
  cbv zeta. split; [reflexivity|]. split.
  - eexists. split; reflexivity.
  - intros [rest H]. vm_compute in H. discriminate H.
Qed.

(** C1 (amended): on every connect of a new connection to a reachable room,
    the sends are, in this order: one roster entry per pre-existing session,
    to the new connection only (user-joined with its id and colour, followed
    by a cursor-move replay when both stored cursor fields are truthy); the
    new connection's own user-joined with its id and fresh colour; user-joined
    for the new connection to every connection open before it, none of which
    is the new connection; and last the user count to everyone. *)
Theorem connect_order (events : list Event) (conn userColor : string) :
  valid (events ++ [Connect conn userColor]) initial = true ->
  let r := exec events initial in
  snd (step (Connect conn userColor) r)
  = connect_sends cursor_truthy conn userColor r
    ++ to_each (connections r ++ [conn]) (UserCount (S (length (connections r))))
  /\ ~ In conn (connections r).
Proof.
  intros Hv r. rewrite valid_app in Hv. apply andb_true_iff in Hv.
  destruct Hv as [Hv He]. simpl in He. rewrite andb_true_r in He.
  apply negb_true_iff, includes_not_In in He. fold r in He.
  split; [|assumption].
  apply step_connect; [|assumption]. apply exec_wf; [apply initial_wf | assumption].
Qed.

Lemma connect_order_witness :
  let events :=
    [Connect "A" color_A;
     Message "A" (JSON (cursor_move (vec 0.5 0.25 0.125) (vec 0 0 1) "red"))] in
  let r := exec events initial in
  snd (step (Connect "B" color_B) r)
  = [Send "B" (UserJoined "A" (Some (JStr color_A)));
     Send "B" (CursorMove "A" (Some (vec 0.5 0.25 0.125)) (Some (vec 0 0 1))
                 (Some (JStr color_A)) None);
     Send "B" (UserJoined "B" (Some (JStr color_B)));
     Send "A" (UserJoined "B" (Some (JStr color_B)));
     Send "A" (UserCount 2); Send "B" (UserCount 2)]
  /\ ~ In "B" (connections r).
Proof.
  exact (connect_order
           [Connect "A" color_A;
            Message "A" (JSON (cursor_move (vec 0.5 0.25 0.125) (vec 0 0 1) "red"))]
           "B" color_B eq_refl).
Defined.

(* ================================================================== *)
(** ** The user count *)
(* ================================================================== *)

(** Whatever the event, a [user-count] it sends carries the number of open
    connections the room has once the handler is done. *)
Lemma step_user_count e r to n :
  In (Send to (UserCount n)) (snd (step e r)) ->
  n = length (connections (fst (step e r))).
Proof.
  destruct e as [conn c | sender message | conn |]; simpl step.
  - unfold run. rewrite onConnect_eq. cbn [fst snd connections].
    rewrite !in_app_iff. intros [H|[H|[H|H]]].
    + apply roster_no_user_count in H. discriminate.
    + destruct H as [H|[]]. discriminate.
    + apply in_to_each in H. destruct H as [_ H]. discriminate.
    + apply in_to_each in H. destruct H as [_ H]. cbn [payload] in H.
      injection H as ->. reflexivity.
  - intros H. apply onMessage_no_user_count in H. discriminate.
  - unfold run. rewrite onClose_eq. cbn [fst snd connections].
    rewrite !in_app_iff. intros [H|H]; apply in_to_each in H; destruct H as [_ H].
    + discriminate.
    + cbn [payload] in H. injection H as ->. reflexivity.
  - intros [].
Qed.




(* ================================================================== *)
(** ** Cursor, colour and camera messages *)
(* ================================================================== *)

Lemma not_in_recipients sender r : ~ In sender (recipients [sender] r).
Proof.
  rewrite recipients_without_one, filter_In, String.eqb_refl.
  intros [_ H]. discriminate.
Qed.

(** C3: a cursor-move from a sender with a session is broadcast to the other
    connections with the colour stored on the sender's session; the colour
    field of the inbound message is not read ([data] is arbitrary), and the
    stored colour is the same before and after the handler. *)
Theorem cursor_move_carries_session_color
    (sender : string) (data : json) (u : Session) (r : Room) :
  is_case (prop data "type") "cursor-move" = true ->
  Map_get sender (connectedUsers r) = Some u ->
  let r' := fst (step (Message sender (JSON data)) r) in
  snd (step (Message sender (JSON data)) r)
  = to_each (recipients [sender] r)
      (CursorMove sender (prop data "position") (prop data "normal")
         (color u) (prop data "rgb"))
  /\ ~ In sender (recipients [sender] r)
  /\ option_map color (Map_get sender (connectedUsers r')) = Some (color u).
Proof.
  intros Hty Hu r'. subst r'. simpl step. unfold run.
  rewrite (onMessage_cursor_move _ _ _ _ Hty Hu). cbn [fst snd connectedUsers].
  split; [reflexivity|]. split; [apply not_in_recipients|].
  now rewrite Map_get_set_same.
Qed.

Lemma cursor_move_carries_session_color_witness :
  let msg := Message "A" (JSON (cursor_move (vec 0.5 0.25 0.125) (vec 0 0 1) "red")) in
  let r := exec two_users initial in
  snd (step msg r)
  = [Send "B" (CursorMove "A" (Some (vec 0.5 0.25 0.125)) (Some (vec 0 0 1))
                 (Some (JStr color_A))
                 (Some (JObj [("r", JNum 255); ("g", JNum 0); ("b", JNum 0)])))]
  /\ ~ In "A" (recipients ["A"] r)
  /\ option_map color (Map_get "A" (connectedUsers (fst (step msg r))))
     = Some (Some (JStr color_A)).
Proof.
  exact (cursor_move_carries_session_color "A"
           (cursor_move (vec 0.5 0.25 0.125) (vec 0 0 1) "red")
           (mkSession (Some (JStr color_A)) None None None)
           (exec two_users initial) eq_refl eq_refl).
Defined.

(** C6: a cursor-move whose sender has no session changes nothing and sends
    nothing, to anyone. *)
Theorem cursor_move_without_session_dropped
    (sender : string) (data : json) (r : Room) :
  is_case (prop data "type") "cursor-move" = true ->
  Map_get sender (connectedUsers r) = None ->
  step (Message sender (JSON data)) r = (r, []).
Proof.
  intros Hty Hu. simpl step. unfold run.
  now rewrite (onMessage_cursor_move_no_session _ _ _ Hty Hu).
Qed.

Lemma cursor_move_without_session_dropped_witness :
  let r := exec duplicate_tab initial in
  step (Message "A" (JSON (cursor_move (vec 0.5 0.25 0.125) (vec 0 0 1) "red"))) r
  = (r, []).
Proof.
  exact (cursor_move_without_session_dropped "A"
           (cursor_move (vec 0.5 0.25 0.125) (vec 0 0 1) "red")
           (exec duplicate_tab initial) eq_refl eq_refl).
Defined.




(** C8, as stated, fails: the camera is not relayed verbatim.  The frame
    [{"type":"camera-sync","camera":{"x":-0,"z":1e999}}] parses to a camera
    with a negative zero and an infinity; the frame the server builds from it
    with [JSON.stringify] gives the recipient [{"x":0,"z":null}]. *)
Lemma camera_relay_counterexample :
  let camera := JObj [("x", JNum PrimFloat.neg_zero); ("z", JNum PrimFloat.infinity)] in
  let data := JObj [("type", JStr "camera-sync"); ("camera", camera)] in
  let r := exec two_users initial in
  step (Message "A" (JSON data)) r = (r, [Send "B" (CameraSync (Some camera))])
  /\ wire (CameraSync (Some camera))
     = JObj [("type", JStr "camera-sync");
             ("camera", JObj [("x", JNum 0); ("z", JNull)])]
  /\ wire (CameraSync (Some camera))
     <> JObj [("type", JStr "camera-sync"); ("camera", camera)].
Proof.
  cbv zeta. split; [reflexivity|]. split; [reflexivity|].
  vm_compute. intros H. discriminate H.
Qed.



(* ================================================================== *)
(** ** Frames the server does not handle *)
(* ================================================================== *)


(** An identify frame without [persistentUserId] is handled as well: the
    sender's id becomes [undefined], and since [undefined === undefined] every
    other session that has not identified is evicted. *)
Example identify_without_id :
  step (Message "A" (JSON (JObj [("type", JStr "identify")]))) (exec two_users initial)
  = (mkRoom [("A", mkSession (Some (JStr color_A)) undefined None None)] ["A"; "B"],
     [Send "A" (UserDisconnect "B"); Send "B" (UserDisconnect "B");
      Send "A" (UserIdentified "A")]).
Proof. reflexivity. Qed.



(* ================================================================== *)
(** ** Identify and eviction *)
(* ================================================================== *)

Lemma strict_eq_str v p : strict_eq v (Some (JStr p)) = true <-> v = Some (JStr p).
Proof.
  split.
  - apply is_case_true.
  - intros ->. simpl. apply String.eqb_refl.
Qed.

Lemma Map_In_get {V} (m : Map V) k w :
  NoDup (Map_keys m) -> In (k, w) m -> Map_get k m = Some w.
Proof.
  induction m as [|[k0 w0] m IH]; simpl; [tauto|].
  intros Hnd Hin. inversion Hnd as [|? ? Hnotin Hnd']; subst.
  destruct Hin as [[= -> ->]|Hin].
  - now rewrite String.eqb_refl.
  - destruct (String.eqb k0 k) eqn:E; [|auto].
    apply String.eqb_eq in E. subst k0. exfalso. apply Hnotin.
    unfold Map_keys. now apply (in_map fst) in Hin.
Qed.

Lemma filter_none {A} (p : A -> bool) l :
  (forall x, In x l -> p x = false) -> filter p l = [].
Proof.
  induction l as [|x l IH]; simpl; [reflexivity|].
  intros H. rewrite (H x) by now left. apply IH. intros y Hy. apply H. now right.
Qed.

Lemma evicted_single pid current (m : Map Session) other :
  NoDup (Map_keys m) ->
  In other (Map_keys m) ->
  (forall k w, In (k, w) m ->
     strict_eq (persistentUserId w) pid && negb (String.eqb k current) = true
     <-> k = other) ->
  evicted pid current m = [other].
Proof.
  unfold evicted. induction m as [|[k0 w0] m IH]; simpl; [tauto|].
  intros Hnd Hin Hiff. inversion Hnd as [|? ? Hnotin Hnd']; subst.
  destruct (strict_eq (persistentUserId w0) pid && negb (String.eqb k0 current)) eqn:E.
  - apply (proj1 (Hiff k0 w0 (or_introl eq_refl))) in E. subst k0. simpl. f_equal.
    rewrite filter_none; [reflexivity|]. intros [k w] Hkw. simpl.
    destruct (strict_eq (persistentUserId w) pid && negb (String.eqb k current)) eqn:E';
      [|reflexivity].
    apply (proj1 (Hiff k w (or_intror Hkw))) in E'. subst k. exfalso. apply Hnotin.
    unfold Map_keys. now apply (in_map fst) in Hkw.
  - destruct Hin as [<-|Hin].
    + pose proof (proj2 (Hiff k0 w0 (or_introl eq_refl)) eq_refl) as H.
      congruence.
    + apply IH; [assumption | assumption |].
      intros k w Hkw. apply Hiff. now right.
Qed.

(** C4: when a connection with a session identifies with a persistent id
    that exactly one other session carries, that other session and no other
    leaves the table, its departure is broadcast to every open connection
    before the sender is acknowledged, the sender's session stays (now
    carrying the id), and every remaining session is as it was. *)
Theorem identify_evicts_the_duplicate
    (sender other p : string) (data : json) (u v : Session) (r : Room) :
  NoDup (Map_keys (connectedUsers r)) ->
  is_case (prop data "type") "identify" = true ->
  prop data "persistentUserId" = Some (JStr p) ->
  Map_get sender (connectedUsers r) = Some u ->
  other <> sender ->
  Map_get other (connectedUsers r) = Some v ->
  persistentUserId v = Some (JStr p) ->
  (forall k w, k <> sender -> k <> other ->
     Map_get k (connectedUsers r) = Some w -> persistentUserId w <> Some (JStr p)) ->
  let r' := fst (step (Message sender (JSON data)) r) in
  let out := snd (step (Message sender (JSON data)) r) in
  Map_get other (connectedUsers r') = None
  /\ Map_keys (connectedUsers r')
     = filter (fun k => negb (String.eqb k other)) (Map_keys (connectedUsers r))
  /\ out = to_each (connections r) (UserDisconnect other)
           ++ [Send sender (UserIdentified sender)]
  /\ Map_get sender (connectedUsers r')
     = Some (with_persistentUserId u (Some (JStr p)))
  /\ (forall k, k <> sender -> k <> other ->
        Map_get k (connectedUsers r') = Map_get k (connectedUsers r)).
Proof.
  intros Hnd Hty Hpid Hu Hne Hv Hvp Hrest r' out. subst r' out.
  simpl step. unfold run. rewrite (onMessage_identify _ _ _ _ Hty Hu).
  rewrite Hpid. cbn [fst snd connectedUsers].
  set (users := Map_set sender (with_persistentUserId u (Some (JStr p)))
                  (connectedUsers r)).
  assert (Hkeys : Map_keys users = Map_keys (connectedUsers r))
    by (apply Map_set_present; eapply Map_get_Some_In; eassumption).
  assert (Hnd' : NoDup (Map_keys users)) by now rewrite Hkeys.
  assert (Hev : evicted (Some (JStr p)) sender users = [other]).
  { apply evicted_single; [assumption | | ].
    - rewrite Hkeys. eapply Map_get_Some_In; eassumption.
    - intros k w Hkw. apply (Map_In_get _ _ _ Hnd') in Hkw. unfold users in Hkw.
      rewrite andb_true_iff, negb_true_iff, String.eqb_neq, strict_eq_str.
      destruct (string_dec k sender) as [->|Hks].
      + split; [tauto | congruence].
      + rewrite Map_get_set_other in Hkw by assumption.
        destruct (string_dec k other) as [->|Hko].
        * split; [tauto|]. intros _. split; [congruence | assumption].
        * split; [|contradiction]. intros [Hp _]. exfalso.
          exact (Hrest k w Hks Hko Hkw Hp). }
  rewrite Hev. simpl flat_map. rewrite app_nil_r. unfold delete_all. simpl fold_left.
  repeat split.
  - now apply Map_delete_gone.
  - rewrite Map_delete_keys by assumption. now rewrite Hkeys.
  - rewrite Map_get_delete_other by congruence. apply Map_get_set_same.
  - intros k Hks Hko. rewrite Map_get_delete_other by assumption.
    now apply Map_get_set_other.
Qed.

Lemma identify_evicts_the_duplicate_witness :
  let r := crowd_room in
  let r' := fst (step (Message "B" (JSON (identify "u1"))) r) in
  let out := snd (step (Message "B" (JSON (identify "u1"))) r) in
  Map_get "A" (connectedUsers r') = None
  /\ Map_keys (connectedUsers r') = ["B"; "C"; "D"]
  /\ out = [Send "A" (UserDisconnect "A"); Send "B" (UserDisconnect "A");
            Send "C" (UserDisconnect "A"); Send "D" (UserDisconnect "A");
            Send "B" (UserIdentified "B")]
  /\ Map_get "B" (connectedUsers r')
     = Some (mkSession (Some (JStr color_B)) (Some (JStr "u1")) None None)
  /\ (forall k, k <> "B" -> k <> "A" ->
        Map_get k (connectedUsers r') = Map_get k (connectedUsers r)).
Proof.
  apply (identify_evicts_the_duplicate "B" "A" "u1" (identify "u1")
           (mkSession (Some (JStr color_B)) None None None)
           (mkSession (Some (JStr color_A)) (Some (JStr "u1")) None None)
           crowd_room).
  - exact (proj1 (exec_wf crowd initial initial_wf eq_refl)).
  - reflexivity.
  - reflexivity.
  - reflexivity.
  - discriminate.
  - reflexivity.
  - reflexivity.
  - intros k w HkB HkA Hget. apply Map_get_In in Hget. vm_compute in Hget.
    decompose [or] Hget; try contradiction;
      match goal with E : (_, _) = (k, w) |- _ => injection E as <- <- end;
      try congruence; simpl; discriminate.
Defined.

(** C10: an identify that evicts a session removes it from the table only:
    the evicted session's connection stays among the open connections (no
    connection is closed), and the handler sends no user-count.  So after an
    eviction the open connections can strictly contain the table's keys, as
    they do once two connections have identified as the same user. *)
Theorem eviction_leaves_connection_open
    (sender k : string) (data : json) (r : Room) :
  is_case (prop data "type") "identify" = true ->
  In k (Map_keys (connectedUsers r)) ->
  In k (connections r) ->
  let r' := fst (step (Message sender (JSON data)) r) in
  let out := snd (step (Message sender (JSON data)) r) in
  ~ In k (Map_keys (connectedUsers r')) ->
  In k (connections r')
  /\ connections r' = connections r
  /\ (forall s, In s out -> is_user_count s = false)
  /\ (let room := exec duplicate_tab initial in
      valid duplicate_tab initial = true
      /\ incl (Map_keys (connectedUsers room)) (connections room)
      /\ In "A" (connections room)
      /\ ~ In "A" (Map_keys (connectedUsers room))).
Proof.
  intros Hty Hk Hlive r' out Hgone. subst r' out. simpl step.
  rewrite onMessage_connections. split; [assumption|]. split; [reflexivity|].
  split; [intros s; apply onMessage_no_user_count|].
  cbv zeta. split; [reflexivity|]. split; [|split].
  - exact (proj2 (proj2 (exec_wf duplicate_tab initial initial_wf eq_refl))).
  - vm_compute. tauto.
  - vm_compute. intros [H|[]]. discriminate.
Qed.

Lemma eviction_leaves_connection_open_witness :
  let r := exec (two_users ++ [Message "A" (JSON (identify "u1"))]) initial in
  let r' := fst (step (Message "B" (JSON (identify "u1"))) r) in
  let out := snd (step (Message "B" (JSON (identify "u1"))) r) in
  In "A" (connections r')
  /\ connections r' = connections r
  /\ (forall s, In s out -> is_user_count s = false)
  /\ (let room := exec duplicate_tab initial in
      valid duplicate_tab initial = true
      /\ incl (Map_keys (connectedUsers room)) (connections room)
      /\ In "A" (connections room)
      /\ ~ In "A" (Map_keys (connectedUsers room))).
Proof.
  apply (eviction_leaves_connection_open "B" "A" (identify "u1")
           (exec (two_users ++ [Message "A" (JSON (identify "u1"))]) initial)).
  - reflexivity.
  - simpl. tauto.
  - simpl. tauto.
  - vm_compute. intros [H|[]]. discriminate.
Defined.

(* ================================================================== *)
(** ** Further properties of the handlers *)
(* ================================================================== *)

Lemma length_filter_out (l : list string) x :
  NoDup l -> In x l ->
  S (length (filter (fun c => negb (String.eqb c x)) l)) = length l.
Proof.
  induction l as [|y l IH]; simpl; [tauto|].
  intros Hnd Hin. inversion Hnd as [|? ? Hnotin Hnd']; subst.
  destruct (String.eqb y x) eqn:E; simpl.
  - apply String.eqb_eq in E. subst y. f_equal. f_equal.
    apply forallb_filter_id. apply forallb_forall. intros c Hc.
    apply negb_true_iff, String.eqb_neq. intros ->. contradiction.
  - apply String.eqb_neq in E. destruct Hin as [?|Hin]; [contradiction|].
    f_equal. now apply IH.
Qed.

(** X1: when an open connection of a reachable room closes, its session
    leaves the table, every remaining connection (and not the closed one) is
    sent the departure and then the new count, which is one less than the
    number of connections before; every other session is as it was. *)
Theorem close_announces_departure (events : list Event) (conn : string) :
  valid (events ++ [Close conn]) initial = true ->
  let r := exec events initial in
  let rest := filter (fun c => negb (String.eqb c conn)) (connections r) in
  let r' := fst (step (Close conn) r) in
  snd (step (Close conn) r)
  = to_each rest (UserDisconnect conn) ++ to_each rest (UserCount (length rest))
  /\ connections r' = rest
  /\ ~ In conn rest
  /\ S (length rest) = length (connections r)
  /\ Map_get conn (connectedUsers r') = None
  /\ (forall k, k <> conn ->
        Map_get k (connectedUsers r') = Map_get k (connectedUsers r)).
Proof.
  intros Hv r rest r'. rewrite valid_app in Hv. apply andb_true_iff in Hv.
  destruct Hv as [Hv He]. simpl in He. rewrite andb_true_r in He.
  apply includes_In in He. fold r in He.
  assert (Hwf : wf r) by (apply exec_wf; [apply initial_wf | assumption]).
  destruct Hwf as (Hk & Hc & Hi).
  subst r'. simpl step. unfold run. rewrite onClose_eq.
  cbn [fst snd connectedUsers connections closed_connection]. fold rest.
  split; [reflexivity|]. split; [reflexivity|]. split; [|split; [|split]].
  - unfold rest. rewrite filter_In, String.eqb_refl. intros [_ H]. discriminate.
  - now apply length_filter_out.
  - now apply Map_delete_gone.
  - intros k Hne. now apply Map_get_delete_other.
Qed.

Lemma close_announces_departure_witness :
  let r := exec two_users initial in
  let rest := filter (fun c => negb (String.eqb c "A")) (connections r) in
  let r' := fst (step (Close "A") r) in
  snd (step (Close "A") r)
  = [Send "B" (UserDisconnect "A"); Send "B" (UserCount 1)]
  /\ connections r' = rest
  /\ ~ In "A" rest
  /\ S (length rest) = length (connections r)
  /\ Map_get "A" (connectedUsers r') = None
  /\ (forall k, k <> "A" ->
        Map_get k (connectedUsers r') = Map_get k (connectedUsers r)).
Proof.
  exact (close_announces_departure two_users "A" eq_refl).
Defined.

(** X2: a cursor-leave is relayed to every open connection other than the
    sender and changes nothing in the room; in particular the sender's stored
    cursor stays, so a connect after the leave sends exactly what it would
    have sent before it. *)
Theorem cursor_leave_keeps_cursor (sender : string) (data : json) (r : Room) :
  is_case (prop data "type") "cursor-leave" = true ->
  step (Message sender (JSON data)) r
  = (r, to_each (recipients [sender] r) (CursorLeave sender))
  /\ ~ In sender (recipients [sender] r)
  /\ (forall conn userColor,
        step (Connect conn userColor) (fst (step (Message sender (JSON data)) r))
        = step (Connect conn userColor) r).
Proof.
  intros Hty. simpl step. unfold run. rewrite (onMessage_cursor_leave _ _ _ Hty).
  cbn [fst]. split; [reflexivity|]. split; [apply not_in_recipients | reflexivity].
Qed.

Lemma cursor_leave_keeps_cursor_witness :
  let data := JObj [("type", JStr "cursor-leave")] in
  let r := exec two_users initial in
  step (Message "A" (JSON data)) r = (r, [Send "B" (CursorLeave "A")])
  /\ ~ In "A" (recipients ["A"] r)
  /\ (forall conn userColor,
        step (Connect conn userColor) (fst (step (Message "A" (JSON data)) r))
        = step (Connect conn userColor) r).
Proof.
  exact (cursor_leave_keeps_cursor "A" (JObj [("type", JStr "cursor-leave")])
           (exec two_users initial) eq_refl).
Defined.

(** X3: a connection that has no session cannot change the room, whatever
    frame it sends; all it can cause is its own identify acknowledgement and
    the relay of a cursor-leave or a camera-sync to the other connections. *)
Theorem sessionless_sender_changes_nothing
    (sender : string) (message : Frame) (r : Room) :
  Map_get sender (connectedUsers r) = None ->
  fst (step (Message sender message) r) = r
  /\ (forall s, In s (snd (step (Message sender message) r)) ->
        s = Send sender (UserIdentified sender)
        \/ (recipient s <> sender
            /\ (payload s = CursorLeave sender
                \/ exists camera, payload s = CameraSync camera))).
Proof.
  intros Hnone. simpl step. unfold run.
  message_cases sender message r; try congruence; cbn [fst snd];
    (split; [reflexivity|]); intros s Hs; try contradiction.
  - destruct Hs as [<-|[]]. now left.
  - right. apply in_to_each in Hs. destruct Hs as [Hr Hp]. split.
    + intros E. rewrite E in Hr. exact (not_in_recipients _ _ Hr).
    + now left.
  - right. apply in_to_each in Hs. destruct Hs as [Hr Hp]. split.
    + intros E. rewrite E in Hr. exact (not_in_recipients _ _ Hr).
    + right. eauto.
Qed.

Lemma sessionless_sender_changes_nothing_witness :
  let message := JSON (JObj [("type", JStr "user-color-change"); ("color", JStr "#ff8800")]) in
  fst (step (Message "A" message) evicted_room) = evicted_room
  /\ (forall s, In s (snd (step (Message "A" message) evicted_room)) ->
        s = Send "A" (UserIdentified "A")
        \/ (recipient s <> "A"
            /\ (payload s = CursorLeave "A"
                \/ exists camera, payload s = CameraSync camera))).
Proof.
  exact (sessionless_sender_changes_nothing "A"
           (JSON (JObj [("type", JStr "user-color-change"); ("color", JStr "#ff8800")]))
           evicted_room eq_refl).
Defined.

Lemma Map_get_delete_same {V} k (m : Map V) :
  NoDup (Map_keys m) ->
  forall k', Map_get k' (Map_delete k m)
             = if String.eqb k k' then None else Map_get k' m.
Proof.
  intros Hnd k'. destruct (String.eqb k k') eqn:E.
  - apply String.eqb_eq in E. subst k'. now apply Map_delete_gone.
  - apply String.eqb_neq in E. apply Map_get_delete_other. congruence.
Qed.

Lemma Map_get_delete_all ks (m : Map Session) k :
  NoDup (Map_keys m) ->
  Map_get k (delete_all ks m) = if includes ks k then None else Map_get k m.
Proof.
  unfold delete_all. revert m. induction ks as [|k0 ks IH]; intros m Hnd.
  - reflexivity.
  - simpl fold_left. rewrite IH by now apply Map_delete_NoDup.
    unfold includes. simpl existsb. fold (includes ks k).
    rewrite Map_get_delete_same by assumption.
    rewrite (String.eqb_sym k k0).
    destruct (includes ks k), (String.eqb k0 k); reflexivity.
Qed.






(** X6: a session exists only for an open connection: in every room reached
    from the empty room by connect, message, close and hibernation events,
    each key of the session table is the id of a connection that is open. *)
Theorem sessions_belong_to_open_connections
    (events : list Event) (k : string) (u : Session) :
  valid events initial = true ->
  Map_get k (connectedUsers (exec events initial)) = Some u ->
  In k (connections (exec events initial)).
Proof.
  intros Hv Hu. destruct (exec_wf events initial initial_wf Hv) as (_ & _ & Hi).
  apply Hi. eapply Map_get_Some_In; eassumption.
Qed.

Lemma sessions_belong_to_open_connections_witness :
  In "B" (connections (exec duplicate_tab initial)).
Proof.
  exact (sessions_belong_to_open_connections duplicate_tab "B"
           (mkSession (Some (JStr color_B)) (Some (JStr "u1")) None None)
           eq_refl eq_refl).
Defined.

(** X7: a user-count never undercounts the sessions: in every reachable room
    the count sent is at least the number of sessions in the table, and it
    equals that number exactly when every open connection has a session. *)
Theorem user_count_bounds_sessions
    (events : list Event) (e : Event) (to : string) (n : nat) :
  valid (events ++ [e]) initial = true ->
  In (Send to (UserCount n)) (snd (step e (exec events initial))) ->
  let r' := fst (step e (exec events initial)) in
  Map_size (connectedUsers r') <= n
  /\ (n = Map_size (connectedUsers r')
      <-> forall c, In c (connections r') ->
                    Map_get c (connectedUsers r') <> None).
Proof.
  intros Hv Hin r'. rewrite (step_user_count _ _ _ _ Hin). fold r'.
  assert (Hwf : wf r').
  { pose proof (exec_wf _ _ initial_wf Hv) as H. rewrite exec_app in H. exact H. }
  destruct Hwf as (Hk & Hc & Hi). unfold Map_size.
  replace (length (connectedUsers r')) with (length (Map_keys (connectedUsers r')))
    by apply length_map.
  split; [now apply NoDup_incl_length|]. split.
  - intros Hlen c Hc' Hnone. apply Map_get_None in Hnone. apply Hnone.
    refine (NoDup_length_incl Hk _ Hi c Hc'). rewrite Hlen. apply le_n.
  - intros Hall. apply Nat.le_antisymm.
    + apply NoDup_incl_length; [assumption|]. intros c Hc'.
      destruct (in_dec string_dec c (Map_keys (connectedUsers r'))) as [|Hn];
        [assumption|].
      apply Map_get_None in Hn. now elim (Hall c Hc').
    + now apply NoDup_incl_length.
Qed.

Lemma user_count_bounds_sessions_witness :
  let r' := fst (step (Connect "C" color_C) (exec duplicate_tab initial)) in
  Map_size (connectedUsers r') <= 3
  /\ (3 = Map_size (connectedUsers r')
      <-> forall c, In c (connections r') ->
                    Map_get c (connectedUsers r') <> None).
Proof.
  apply (user_count_bounds_sessions duplicate_tab (Connect "C" color_C) "C" 3).
  - reflexivity.
  - simpl. tauto.
Defined.

Lemma In_Map_set {V} k (v : V) m k' v' :
  In (k', v') (Map_set k v m) -> (k', v') = (k, v) \/ In (k', v') m.
Proof.
  induction m as [|[k0 v0] m IH]; simpl.
  - intros [H|[]]. left. now symmetry.
  - destruct (String.eqb k0 k); simpl.
    + intros [H|H]; [left; now symmetry | right; now right].
    + intros [H|H]; [right; now left|]. destruct (IH H); auto.
Qed.

Lemma In_Map_set_other {V} k (v : V) m k' v' :
  k' <> k -> In (k', v') m -> In (k', v') (Map_set k v m).
Proof.
  intros Hne. induction m as [|[k0 v0] m IH]; simpl; [tauto|].
  destruct (String.eqb k0 k) eqn:E; simpl.
  - apply String.eqb_eq in E. subst k0. intros [[= <- _]|H]; [congruence | now right].
  - intros [H|H]; [now left | right; auto].
Qed.

Lemma In_Map_delete {V} k (m : Map V) e : In e (Map_delete k m) -> In e m.
Proof.
  induction m as [|[k0 v0] m IH]; simpl; [tauto|].
  destruct (String.eqb k0 k); simpl; tauto.
Qed.

Lemma In_delete_all ks (m : Map Session) e : In e (delete_all ks m) -> In e m.
Proof.
  unfold delete_all. revert m. induction ks as [|k ks IH]; intros m; simpl; [auto|].
  intros H. apply IH in H. eapply In_Map_delete; eassumption.
Qed.

(** Colours only enter the table at connect and at user-color-change. *)
Lemma step_colors (Q : jsval -> Prop) e r :
  colors_ok Q (connectedUsers r) -> event_color_ok Q e ->
  colors_ok Q (connectedUsers (fst (step e r))).
Proof.
  unfold colors_ok. intros Hok He.
  destruct e as [conn c | sender message | conn |]; simpl step.
  - unfold run. rewrite onConnect_eq. cbn [fst connectedUsers open_connection].
    intros k u Hin. apply In_Map_set in Hin. destruct Hin as [[= -> ->]|Hin]; eauto.
  - unfold run. message_cases sender message r; cbn [fst connectedUsers];
      try assumption; intros k u Hin.
    + apply In_delete_all, In_Map_set in Hin.
      destruct Hin as [[= -> ->]|Hin]; [|eauto]. simpl.
      apply Map_get_In in Hu. eauto.
    + apply In_Map_set in Hin. destruct Hin as [[= -> ->]|Hin]; [|eauto]. simpl.
      apply Map_get_In in Hu. eauto.
    + apply In_Map_set in Hin. destruct Hin as [[= -> ->]|Hin]; [|eauto]. simpl.
      now apply He.
  - unfold run. rewrite onClose_eq. cbn [fst connectedUsers closed_connection].
    intros k u Hin. apply In_Map_delete in Hin. eauto.
  - intros k u [].
Qed.

Lemma exec_colors (Q : jsval -> Prop) events r :
  colors_ok Q (connectedUsers r) -> Forall (event_color_ok Q) events ->
  colors_ok Q (connectedUsers (exec events r)).
Proof.
  revert r. induction events as [|e events IH]; intros r Hok Hall; simpl.
  - assumption.
  - inversion Hall; subst. apply IH; [now apply step_colors | assumption].
Qed.

Lemma carried_colors_ok events :
  forallb carries_color events = true ->
  Forall (event_color_ok (fun v => exists c, v = Some c)) events.
Proof.
  intros Hall. apply Forall_forall. intros e He.
  rewrite forallb_forall in Hall. specialize (Hall e He).
  destruct e as [conn c | sender [|data] | conn |]; simpl; try exact I.
  - eauto.
  - intros Hty. simpl in Hall. rewrite Hty in Hall.
    destruct (prop data "color"); [eauto | discriminate].
Qed.

Lemma other_case_excluded ty label label' :
  is_case ty label = true -> String.eqb label label' = false ->
  is_case ty label' = false.
Proof.
  intros H Hne. apply is_case_true in H. subst ty. unfold is_case. simpl. exact Hne.
Qed.

(** One event, seen from the session of [k]: if [k] has a session afterwards,
    its colour is the one the event brought, or the one it had. *)
Lemma step_latest_color e r k u' :
  NoDup (Map_keys (connectedUsers r)) ->
  Map_get k (connectedUsers (fst (step e r))) = Some u' ->
  match color_event k e with
  | Some c => color u' = c
  | None => exists u, Map_get k (connectedUsers r) = Some u /\ color u = color u'
  end.
Proof.
  intros Hnd. destruct e as [conn c | sender message | conn |]; simpl step.
  - unfold run. rewrite onConnect_eq. cbn [fst connectedUsers open_connection].
    simpl color_event. destruct (String.eqb conn k) eqn:E.
    + apply String.eqb_eq in E. subst k. rewrite Map_get_set_same.
      intros [= <-]. reflexivity.
    + apply String.eqb_neq in E. rewrite Map_get_set_other by congruence. eauto.
  - unfold run. simpl color_event.
    message_cases sender message r; cbn [fst connectedUsers];
      rewrite ?(other_case_excluded _ _ "user-color-change" Hid eq_refl),
              ?(other_case_excluded _ _ "user-color-change" Hmv eq_refl),
              ?(other_case_excluded _ _ "user-color-change" Hlv eq_refl),
              ?Hcc, ?andb_false_r;
      eauto.
    + (* identify *)
      rewrite Map_get_delete_all
        by (erewrite Map_set_present; eauto using Map_get_Some_In).
      destruct (includes _ k); [discriminate|].
      destruct (string_dec k sender) as [->|Hne].
      * rewrite Map_get_set_same. intros [= <-]. eauto.
      * rewrite Map_get_set_other by assumption. eauto.
    + (* cursor-move *)
      destruct (string_dec k sender) as [->|Hne].
      * rewrite Map_get_set_same. intros [= <-]. eauto.
      * rewrite Map_get_set_other by assumption. eauto.
    + (* user-color-change, with a session *)
      rewrite andb_true_r. destruct (String.eqb sender k) eqn:E.
      * apply String.eqb_eq in E. subst k. rewrite Map_get_set_same.
        intros [= <-]. reflexivity.
      * apply String.eqb_neq in E. rewrite Map_get_set_other by congruence. eauto.
    + (* user-color-change, without a session *)
      rewrite andb_true_r. destruct (String.eqb sender k) eqn:E; [|eauto].
      apply String.eqb_eq in E. subst k. congruence.
  - unfold run. rewrite onClose_eq. cbn [fst connectedUsers closed_connection].
    simpl color_event. rewrite Map_get_delete_same by assumption.
    destruct (String.eqb conn k); [discriminate | eauto].
  - discriminate.
Qed.

Lemma exec_latest_color events r (acc : option jsval) k u :
  wf r -> valid events r = true ->
  (forall u0, Map_get k (connectedUsers r) = Some u0 -> acc = Some (color u0)) ->
  Map_get k (connectedUsers (exec events r)) = Some u ->
  latest_color k events acc = Some (color u).
Proof.
  revert r acc. induction events as [|e events IH]; intros r acc Hwf Hv Hacc Hu;
    cbn [valid exec latest_color] in *.
  - auto.
  - apply andb_true_iff in Hv. destruct Hv as [He Hv].
    apply (IH (fst (step e r))); [now apply step_wf | assumption | | assumption].
    intros u0 Hu0. pose proof (step_latest_color e r k u0 (proj1 Hwf) Hu0) as H.
    destruct (color_event k e) as [c|].
    + now rewrite H.
    + destruct H as (u1 & Hu1 & Hc). rewrite <- Hc. auto.
Qed.

(** X8: in every reachable room, the colour of a session is the colour its
    connection's latest colour event brought: the [color] field of the last
    user-color-change frame the connection sent since it connected
    ([undefined] when that frame had none), or the colour generated at its
    connect when it sent none.  So as long as every user-color-change frame
    carried a [color] field, every session has a colour. *)
Theorem color_stays_set (events : list Event) (k : string) (u : Session) :
  valid events initial = true ->
  Map_get k (connectedUsers (exec events initial)) = Some u ->
  latest_color k events None = Some (color u)
  /\ (forallb carries_color events = true -> exists c, color u = Some c).
Proof.
  intros Hv Hu. split.
  - apply (exec_latest_color events initial None k u initial_wf Hv);
      [discriminate | assumption].
  - intros Hall. apply Map_get_In in Hu.
    refine (exec_colors (fun v => exists c, v = Some c) events initial _ _ k u Hu).
    + intros ? ? [].
    + now apply carried_colors_ok.
Qed.

Lemma color_stays_set_witness :
  let change := JObj [("type", JStr "user-color-change"); ("color", JStr "#ff8800")] in
  let events := two_users ++ [Message "A" (JSON change)] in
  let u := mkSession (Some (JStr "#ff8800")) None None None in
  latest_color "A" events None = Some (color u)
  /\ (forallb carries_color events = true -> exists c, color u = Some c).
Proof.
  exact (color_stays_set
           (two_users
            ++ [Message "A" (JSON (JObj [("type", JStr "user-color-change");
                                         ("color", JStr "#ff8800")]))])
           "A" (mkSession (Some (JStr "#ff8800")) None None None)
           eq_refl eq_refl).
Defined.

(** X9: a frame that is not an identify changes at most the sender's own
    session, and no session's persistent id, the sender's included: apart
    from connect and close, only identify can alter who is in the table or
    under which id. *)
Theorem message_touches_only_sender
    (sender : string) (message : Frame) (r : Room) :
  is_identify (Message sender message) = false ->
  let r' := fst (step (Message sender message) r) in
  (forall k, k <> sender ->
     Map_get k (connectedUsers r') = Map_get k (connectedUsers r))
  /\ (forall k,
        option_map persistentUserId (Map_get k (connectedUsers r'))
        = option_map persistentUserId (Map_get k (connectedUsers r))).
Proof.
  unfold is_identify. simpl step. unfold run.
  message_cases sender message r; cbn [fst connectedUsers]; intros Hni;
    try congruence; try (split; reflexivity).
  - split.
    + intros k Hne. now apply Map_get_set_other.
    + intros k. destruct (string_dec k sender) as [->|Hne].
      * rewrite Map_get_set_same, Hu. reflexivity.
      * now rewrite Map_get_set_other.
  - split.
    + intros k Hne. now apply Map_get_set_other.
    + intros k. destruct (string_dec k sender) as [->|Hne].
      * rewrite Map_get_set_same, Hu. reflexivity.
      * now rewrite Map_get_set_other.
Qed.

Lemma message_touches_only_sender_witness :
  let message := JSON (cursor_move (vec 0.5 0.25 0.125) (vec 0 0 1) "red") in
  let r' := fst (step (Message "C" message) crowd_room) in
  (forall k, k <> "C" ->
     Map_get k (connectedUsers r') = Map_get k (connectedUsers crowd_room))
  /\ (forall k,
        option_map persistentUserId (Map_get k (connectedUsers r'))
        = option_map persistentUserId (Map_get k (connectedUsers crowd_room))).
Proof.
  exact (message_touches_only_sender "C"
           (JSON (cursor_move (vec 0.5 0.25 0.125) (vec 0 0 1) "red"))
           crowd_room eq_refl).
Defined.

Lemma roster_recipient replay conn entries s :
  In s (roster replay conn entries) -> recipient s = conn.
Proof.
  unfold roster, roster_entry. rewrite in_flat_map. intros ([k u] & _ & Hs).
  simpl in Hs. destruct (replay u); simpl in Hs;
    decompose [or] Hs; subst; try contradiction; reflexivity.
Qed.

Lemma recipients_open without r c :
  In c (recipients without r) -> In c (connections r).
Proof. unfold recipients. rewrite filter_In. tauto. Qed.

(** X10: whatever the event, every frame it makes the server send goes to a
    connection that is open when the handler is done: nothing is sent to a
    connection that has closed or never opened. *)
Theorem frames_go_to_open_connections (e : Event) (r : Room) (s : Sent) :
  enabled e r = true ->
  In s (snd (step e r)) ->
  In (recipient s) (connections (fst (step e r))).
Proof.
  intros Hen. destruct e as [conn c | sender message | conn |]; simpl step.
  - unfold run. rewrite onConnect_eq. cbn [fst snd connections open_connection].
    rewrite !in_app_iff. intros [H|[H|[H|H]]].
    + apply roster_recipient in H. rewrite H. right. now left.
    + destruct H as [<-|[]]. simpl. right. now left.
    + apply in_to_each in H. destruct H as [H _].
      apply recipients_open in H. exact (proj1 (in_app_iff _ _ _) H).
    + apply in_to_each in H. destruct H as [H _].
      exact (proj1 (in_app_iff _ _ _) H).
  - simpl in Hen. apply includes_In in Hen.
    rewrite onMessage_connections. unfold run.
    message_cases sender message r; cbn [snd];
      rewrite ?in_app_iff, ?in_evictions, ?in_to_each; simpl In;
      intros H; decompose [and or ex] H; subst; try contradiction;
      eauto using recipients_open.
  - unfold run. rewrite onClose_eq. cbn [fst snd connections closed_connection].
    rewrite !in_app_iff. intros [H|H]; apply in_to_each in H; tauto.
  - intros [].
Qed.

Lemma frames_go_to_open_connections_witness :
  In (recipient (Send "B" (UserDisconnect "A")))
     (connections (fst (step (Close "A") (exec two_users initial)))).
Proof.
  apply (frames_go_to_open_connections (Close "A") (exec two_users initial)
           (Send "B" (UserDisconnect "A"))).
  - reflexivity.
  - simpl. tauto.
Defined.

(** What a connect sends about a session that is in the table. *)
Lemma connect_lists_session conn userColor r k u :
  Map_get k (connectedUsers r) = Some u -> k <> conn ->
  let out := snd (step (Connect conn userColor) r) in
  In (Send conn (UserJoined k (color u))) out
  /\ (cursor_truthy u = true ->
      In (Send conn (CursorMove k (lastCursorPosition u) (lastCursorNormal u)
                       (color u) undefined)) out).
Proof.
  intros Hu Hne out. subst out. simpl step. unfold run. rewrite onConnect_eq.
  cbn [snd connectedUsers open_connection].
  set (me := mkSession _ _ _ _).
  assert (Hin : In (k, u)
                  (filter (fun e => negb (String.eqb (fst e) conn))
                     (Map_set conn me (connectedUsers r)))).
  { apply filter_In. split.
    - apply In_Map_set_other; [assumption | now apply Map_get_In].
    - simpl. now apply negb_true_iff, String.eqb_neq. }
  split; [|intros Ht]; apply in_or_app; left; unfold roster;
    apply in_flat_map; exists (k, u); (split; [assumption|]);
    unfold roster_entry; simpl fst; simpl snd.
  - now left.
  - rewrite Ht. right. now left.
Qed.

Lemma color_change_stored sender data u r :
  is_case (prop data "type") "user-color-change" = true ->
  Map_get sender (connectedUsers r) = Some u ->
  Map_get sender (connectedUsers (fst (step (Message sender (JSON data)) r)))
  = Some (with_color u (prop data "color"))
  /\ connections (fst (step (Message sender (JSON data)) r)) = connections r.
Proof.
  intros Hty Hu. simpl step. unfold run.
  rewrite (onMessage_color_change _ _ _ _ Hty Hu). cbn [fst connectedUsers connections].
  split; [apply Map_get_set_same | reflexivity].
Qed.

(** X11: after a user-color-change, a connection that joins next is told the
    changed colour for the sender, not the colour assigned at connect. *)
Theorem joiner_sees_changed_color
    (sender conn userColor : string) (data : json) (u : Session) (r : Room) :
  is_case (prop data "type") "user-color-change" = true ->
  Map_get sender (connectedUsers r) = Some u ->
  sender <> conn ->
  In (Send conn (UserJoined sender (prop data "color")))
     (snd (step (Connect conn userColor)
             (fst (step (Message sender (JSON data)) r)))).
Proof.
  intros Hty Hu Hne.
  destruct (color_change_stored sender data u r Hty Hu) as [Hs _].
  exact (proj1 (connect_lists_session conn userColor _ sender _ Hs Hne)).
Qed.

Lemma joiner_sees_changed_color_witness :
  let data := JObj [("type", JStr "user-color-change"); ("color", JStr "#ff8800")] in
  In (Send "C" (UserJoined "A" (Some (JStr "#ff8800"))))
     (snd (step (Connect "C" color_C)
             (fst (step (Message "A" (JSON data)) (exec two_users initial))))).
Proof.
  apply (joiner_sees_changed_color "A" "C" color_C
           (JObj [("type", JStr "user-color-change"); ("color", JStr "#ff8800")])
           (mkSession (Some (JStr color_A)) None None None)
           (exec two_users initial)).
  - reflexivity.
  - reflexivity.
  - discriminate.
Defined.

Lemma cursor_leave_room sender data r :
  is_case (prop data "type") "cursor-leave" = true ->
  fst (step (Message sender (JSON data)) r) = r.
Proof.
  intros Hty. simpl step. unfold run. now rewrite (onMessage_cursor_leave _ _ _ Hty).
Qed.

(** X12: the cursor a connection last reported is what a later joiner is
    shown for it, with the session's colour, even after the connection has
    sent a cursor-leave: when position and normal are truthy, the joiner gets
    a cursor-move replay carrying exactly the reported values. *)
Theorem joiner_sees_last_cursor
    (sender conn userColor : string) (move leave : json) (u : Session) (r : Room) :
  is_case (prop move "type") "cursor-move" = true ->
  is_case (prop leave "type") "cursor-leave" = true ->
  truthy (prop move "position") && truthy (prop move "normal") = true ->
  Map_get sender (connectedUsers r) = Some u ->
  sender <> conn ->
  let r' := exec [Message sender (JSON move); Message sender (JSON leave)] r in
  In (Send conn (CursorMove sender (prop move "position") (prop move "normal")
                   (color u) undefined))
     (snd (step (Connect conn userColor) r')).
Proof.
  intros Hmv Hlv Ht Hu Hne r'. subst r'. cbn [exec].
  rewrite (cursor_leave_room sender leave _ Hlv).
  assert (Hs : Map_get sender
                 (connectedUsers (fst (step (Message sender (JSON move)) r)))
               = Some (with_cursor u (prop move "position") (prop move "normal"))).
  { simpl step. unfold run. rewrite (onMessage_cursor_move _ _ _ _ Hmv Hu).
    cbn [fst connectedUsers]. apply Map_get_set_same. }
  exact (proj2 (connect_lists_session conn userColor _ sender _ Hs Hne) Ht).
Qed.

Lemma joiner_sees_last_cursor_witness :
  let move := cursor_move (vec 0.5 0.25 0.125) (vec 0 0 1) "red" in
  let leave := JObj [("type", JStr "cursor-leave")] in
  let r' := exec [Message "A" (JSON move); Message "A" (JSON leave)]
              (exec two_users initial) in
  In (Send "C" (CursorMove "A" (Some (vec 0.5 0.25 0.125)) (Some (vec 0 0 1))
                  (Some (JStr color_A)) undefined))
     (snd (step (Connect "C" color_C) r')).
Proof.
  apply (joiner_sees_last_cursor "A" "C" color_C
           (cursor_move (vec 0.5 0.25 0.125) (vec 0 0 1) "red")
           (JObj [("type", JStr "cursor-leave")])
           (mkSession (Some (JStr color_A)) None None None)
           (exec two_users initial)).
  - reflexivity.
  - reflexivity.
  - reflexivity.
  - reflexivity.
  - discriminate.
Defined.

Lemma Map_delete_last {V} k (v : V) (m : Map V) :
  ~ In k (Map_keys m) -> Map_delete k (m ++ [(k, v)]) = m.
Proof.
  induction m as [|[k0 v0] m IH]; simpl.
  - now rewrite String.eqb_refl.
  - intros Hn. destruct (String.eqb k0 k) eqn:E.
    + apply String.eqb_eq in E. tauto.
    + rewrite IH by tauto. reflexivity.
Qed.

(** X13: a connection that opens and closes without sending anything leaves
    no trace: the room after its close is the room before its connect, with
    the same sessions in the same order and the same open connections. *)
Theorem connect_then_close_restores_room
    (events : list Event) (conn userColor : string) :
  valid (events ++ [Connect conn userColor]) initial = true ->
  exec (events ++ [Connect conn userColor; Close conn]) initial
  = exec events initial.
Proof.
  intros Hv. rewrite valid_app in Hv. apply andb_true_iff in Hv.
  destruct Hv as [Hv He]. simpl in He. rewrite andb_true_r in He.
  apply negb_true_iff, includes_not_In in He.
  pose proof (exec_wf events initial initial_wf Hv) as (Hk & Hc & Hi).
  rewrite exec_app. set (r := exec events initial) in *.
  cbn [exec step]. unfold run.
  rewrite onConnect_eq. cbn [fst]. rewrite onClose_eq.
  cbn [fst connectedUsers connections closed_connection open_connection].
  assert (Hfresh : ~ In conn (Map_keys (connectedUsers r))) by (intros H; auto).
  rewrite Map_set_absent, Map_delete_last by assumption.
  rewrite filter_app. simpl filter. rewrite String.eqb_refl. simpl. rewrite app_nil_r.
  rewrite forallb_filter_id.
  - now destruct r.
  - apply forallb_forall. intros c Hin.
    apply negb_true_iff, String.eqb_neq. intros ->. contradiction.
Qed.

Lemma connect_then_close_restores_room_witness :
  exec (duplicate_tab ++ [Connect "C" color_C; Close "C"]) initial
  = exec duplicate_tab initial.
Proof.
  exact (connect_then_close_restores_room duplicate_tab "C" color_C eq_refl).
Defined.

(* ================================================================== *)
(** ** What a client does with the server's frames *)
(* ================================================================== *)

Lemma if_truthy_str k : k <> "" -> if_truthy (Some (JStr k)) = Some (JStr k).
Proof.
  intros Hne. unfold if_truthy, truthy.
  apply String.eqb_neq in Hne. now rewrite Hne.
Qed.

Lemma receive_userColors msg cl :
  userColors (receive msg cl)
  = match msg with
    | UserJoined k c | UserColorChange k c =>
        match if_truthy (Some (JStr k)), if_truthy (relay c) with
        | Some s, Some v => copy_set s v (userColors cl)
        | _, _ => userColors cl
        end
    | UserDisconnect k =>
        match if_truthy (Some (JStr k)) with
        | Some s => copy_delete s (userColors cl)
        | None => userColors cl
        end
    | _ => userColors cl
    end.
Proof.
  unfold receive.
  destruct msg as [k c | k p n c g | k | k c | cam | k | n | k];
    repeat match goal with
           | v : jsval |- _ => destruct v as [?|]
           end;
    cbn -[if_truthy reparse copy_set copy_delete number_of_nat];
    repeat match goal with
           | |- context [if_truthy ?v] => destruct (if_truthy v)
           end; reflexivity.
Qed.

Lemma receive_userCount msg cl :
  userCount (receive msg cl)
  = match msg with
    | UserCount n => number_of_nat n
    | _ => userCount cl
    end.
Proof.
  unfold receive.
  destruct msg as [k c | k p n c g | k | k c | cam | k | n | k];
    repeat match goal with
           | v : jsval |- _ => destruct v as [?|]
           end;
    cbn -[if_truthy reparse copy_set copy_delete number_of_nat];
    repeat match goal with
           | |- context [if_truthy ?v] => destruct (if_truthy v)
           end; reflexivity.
Qed.

Lemma receive_userSessionId msg cl :
  userSessionId (receive msg cl)
  = match msg with
    | UserIdentified k =>
        match if_truthy (Some (JStr k)) with
        | Some s => Some s
        | None => userSessionId cl
        end
    | _ => userSessionId cl
    end.
Proof.
  unfold receive.
  destruct msg as [k c | k p n c g | k | k c | cam | k | n | k];
    repeat match goal with
           | v : jsval |- _ => destruct v as [?|]
           end;
    cbn -[if_truthy reparse copy_set copy_delete number_of_nat];
    repeat match goal with
           | |- context [if_truthy ?v] => destruct (if_truthy v)
           end; reflexivity.
Qed.

Lemma world_exec_room events w :
  room (world_exec events w) = exec events (room w).
Proof.
  revert w. induction events as [|e events IH]; intros w; simpl; [reflexivity|].
  rewrite IH. unfold world_step. now destruct (step e (room w)).
Qed.

Lemma receive_all_app msgs1 msgs2 cl :
  receive_all (msgs1 ++ msgs2) cl = receive_all msgs2 (receive_all msgs1 cl).
Proof. unfold receive_all. apply fold_left_app. Qed.

(** Delivery, seen from one connection: its client handles its inbox. *)
Lemma deliver_get out cs c :
  Map_get c (deliver out cs) = option_map (receive_all (inbox c out)) (Map_get c cs).
Proof.
  unfold deliver, inbox. revert cs. induction out as [|[to msg] out IH]; intros cs.
  - simpl. now destruct (Map_get c cs).
  - simpl fold_left. rewrite IH. simpl recipient; simpl payload. simpl filter.
    simpl recipient. destruct (String.eqb to c) eqn:E.
    + apply String.eqb_eq in E. subst to.
      destruct (Map_get c cs) as [cl|] eqn:Hc.
      * rewrite Map_get_set_same. reflexivity.
      * rewrite Hc. reflexivity.
    + apply String.eqb_neq in E.
      destruct (Map_get to cs) as [cl|]; [|reflexivity].
      rewrite Map_get_set_other by congruence. reflexivity.
Qed.

Lemma deliver_keys out (cs : Map Client) :
  Map_keys (deliver out cs) = Map_keys cs.
Proof.
  unfold deliver. revert cs. induction out as [|s out IH]; intros cs; simpl.
  - reflexivity.
  - rewrite IH. destruct (Map_get (recipient s) cs) eqn:E; [|reflexivity].
    apply Map_set_present. eapply Map_get_Some_In; eassumption.
Qed.

Lemma inbox_app c out1 out2 : inbox c (out1 ++ out2) = inbox c out1 ++ inbox c out2.
Proof. unfold inbox. now rewrite filter_app, map_app. Qed.

Lemma inbox_to_each c conns msg :
  NoDup conns ->
  inbox c (to_each conns msg) = if includes conns c then [msg] else [].
Proof.
  unfold inbox, to_each, includes. induction conns as [|a conns IH]; intros Hnd.
  - reflexivity.
  - inversion Hnd as [|? ? Hnotin Hnd']; subst. simpl. rewrite (String.eqb_sym c a).
    destruct (String.eqb a c) eqn:E; simpl.
    + apply String.eqb_eq in E. subst a. f_equal.
      rewrite filter_none; [reflexivity|]. intros s Hs.
      apply in_map_iff in Hs. destruct Hs as (x & <- & Hx). simpl.
      apply String.eqb_neq. intros ->. contradiction.
    + now apply IH.
Qed.

Lemma inbox_evictions c conns ks :
  NoDup conns ->
  inbox c (flat_map (fun k => to_each conns (UserDisconnect k)) ks)
  = if includes conns c then map UserDisconnect ks else [].
Proof.
  intros Hnd. induction ks as [|k ks IH]; simpl.
  - now destruct (includes conns c).
  - rewrite inbox_app, IH, inbox_to_each by assumption.
    now destruct (includes conns c).
Qed.

Lemma inbox_roster c replay conn entries :
  inbox c (roster replay conn entries)
  = if String.eqb conn c then map payload (roster replay conn entries) else [].
Proof.
  unfold inbox. destruct (String.eqb conn c) eqn:E.
  - f_equal. apply forallb_filter_id. apply forallb_forall. intros s Hs.
    apply roster_recipient in Hs. now rewrite Hs.
  - rewrite filter_none; [reflexivity|]. intros s Hs.
    apply roster_recipient in Hs. now rewrite Hs.
Qed.

Lemma inbox_one c to msg :
  inbox c [Send to msg] = if String.eqb to c then [msg] else [].
Proof. unfold inbox. simpl. now destruct (String.eqb to c). Qed.

(** *** The client's colour list against the session table *)

Lemma mirrors_set uc m k c u :
  mirrors uc m -> color u = Some (JStr c) ->
  mirrors (copy_set (JStr k) (JStr c) uc) (Map_set k u m).
Proof.
  unfold mirrors, table_view. intros H Hc. revert uc H.
  induction m as [|[k0 u0] m IH]; intros [|[j v] uc] H; try discriminate H.
  - simpl. now rewrite Hc.
  - simpl in H. injection H as Hj Hv Hrest. subst j. simpl.
    destruct (String.eqb k0 k) eqn:E; simpl.
    + apply String.eqb_eq in E. subst k0. rewrite Hc, Hrest. reflexivity.
    + rewrite Hv. apply (f_equal (cons _)). now apply IH.
Qed.

Lemma mirrors_delete uc m k :
  mirrors uc m -> mirrors (copy_delete (JStr k) uc) (Map_delete k m).
Proof.
  unfold mirrors, table_view. revert uc.
  induction m as [|[k0 u0] m IH]; intros [|[j v] uc] H; try discriminate H.
  - reflexivity.
  - simpl in H. injection H as Hj Hv Hrest. subst j. simpl.
    destruct (String.eqb k0 k) eqn:E; simpl.
    + assumption.
    + rewrite Hv. apply (f_equal (cons _)). now apply IH.
Qed.

Lemma table_view_same_color m k u u' :
  Map_get k m = Some u -> color u' = color u ->
  table_view (Map_set k u' m) = table_view m.
Proof.
  unfold table_view. intros Hu Hc.
  induction m as [|[k0 u0] m IH]; simpl in *; [discriminate|].
  destruct (String.eqb k0 k) eqn:E; simpl.
  - apply String.eqb_eq in E. injection Hu as ->. subst k0. now rewrite Hc.
  - apply (f_equal (cons _)). now apply IH.
Qed.

Lemma receive_all_one msg cl : receive_all [msg] cl = receive msg cl.
Proof. reflexivity. Qed.

Lemma receive_all_nil cl : receive_all [] cl = cl.
Proof. reflexivity. Qed.

(** The roster, received by a client whose list mirrors [m0], extends the
    list by the roster's sessions. *)
Lemma roster_received replay conn (m m0 : Map Session) cl :
  NoDup (Map_keys (m0 ++ m)) ->
  colors_ok color_string m ->
  (forall k, In k (Map_keys m) -> k <> "") ->
  mirrors (userColors cl) m0 ->
  let cl' := receive_all (map payload (roster replay conn m)) cl in
  mirrors (userColors cl') (m0 ++ m)
  /\ userCount cl' = userCount cl
  /\ userSessionId cl' = userSessionId cl.
Proof.
  revert m0 cl. induction m as [|[k u] m IH]; intros m0 cl Hnd Hcol Hkeys Hm.
  - simpl. rewrite app_nil_r. auto.
  - destruct (Hcol k u (or_introl eq_refl)) as (c & Hc & Hcne).
    assert (Hk : k <> "") by (apply Hkeys; now left).
    assert (Hfresh : ~ In k (Map_keys m0)).
    { unfold Map_keys in Hnd. rewrite map_app in Hnd. simpl in Hnd.
      apply NoDup_remove_2 in Hnd. intros H. apply Hnd, in_or_app. now left. }
    set (cl1 := receive (UserJoined k (color u)) cl).
    assert (H1 : mirrors (userColors cl1) (m0 ++ [(k, u)])
                 /\ userCount cl1 = userCount cl
                 /\ userSessionId cl1 = userSessionId cl).
    { unfold cl1. rewrite receive_userColors, receive_userCount, receive_userSessionId.
      rewrite Hc. simpl relay. rewrite !if_truthy_str by assumption.
      split; [|auto]. rewrite <- (Map_set_absent k u m0) by assumption.
      now apply mirrors_set. }
    assert (Hnd' : NoDup (Map_keys ((m0 ++ [(k, u)]) ++ m)))
      by now rewrite <- app_assoc.
    assert (Hcol' : colors_ok color_string m)
      by (intros k' u' Hin; apply (Hcol k' u'); now right).
    assert (Hkeys' : forall k', In k' (Map_keys m) -> k' <> "")
      by (intros k' Hin; apply Hkeys; now right).
    change (roster replay conn ((k, u) :: m))
      with (roster_entry replay conn k u ++ roster replay conn m).
    rewrite map_app, receive_all_app. unfold roster_entry.
    destruct H1 as (Hm1 & Hn1 & Hs1).
    destruct (replay u).
    + change (receive_all (map payload [Send conn (UserJoined k (color u));
                Send conn (CursorMove k (lastCursorPosition u) (lastCursorNormal u)
                             (color u) undefined)]) cl)
        with (receive (CursorMove k (lastCursorPosition u) (lastCursorNormal u)
                         (color u) undefined) cl1).
      set (cl2 := receive (CursorMove k _ _ _ _) cl1).
      assert (H2 : mirrors (userColors cl2) (m0 ++ [(k, u)])
                   /\ userCount cl2 = userCount cl
                   /\ userSessionId cl2 = userSessionId cl).
      { unfold cl2.
        rewrite receive_userColors, receive_userCount, receive_userSessionId. auto. }
      destruct H2 as (Hm2 & Hn2 & Hs2).
      destruct (IH (m0 ++ [(k, u)]) cl2 Hnd' Hcol' Hkeys' Hm2) as (Ha & Hb & Hc').
      rewrite <- app_assoc in Ha. rewrite Hb, Hc'. auto.
    + change (receive_all (map payload [Send conn (UserJoined k (color u))]) cl)
        with cl1.
      destruct (IH (m0 ++ [(k, u)]) cl1 Hnd' Hcol' Hkeys' Hm1) as (Ha & Hb & Hc').
      rewrite <- app_assoc in Ha. rewrite Hb, Hc'. auto.
Qed.

(** A run of user-disconnect frames removes the named sessions from the
    client's list and changes nothing else. *)
Lemma evictions_received ks (m : Map Session) cl :
  (forall k, In k ks -> k <> "") ->
  let cl' := receive_all (map UserDisconnect ks) cl in
  (mirrors (userColors cl) m -> mirrors (userColors cl') (delete_all ks m))
  /\ userCount cl' = userCount cl
  /\ userSessionId cl' = userSessionId cl.
Proof.
  unfold delete_all. revert m cl. induction ks as [|k ks IH]; intros m cl Hne.
  - simpl. auto.
  - simpl map. unfold receive_all. simpl fold_left.
    set (cl1 := receive (UserDisconnect k) cl).
    assert (H1 : (mirrors (userColors cl) m ->
                  mirrors (userColors cl1) (Map_delete k m))
                 /\ userCount cl1 = userCount cl
                 /\ userSessionId cl1 = userSessionId cl).
    { unfold cl1. rewrite receive_userColors, receive_userCount, receive_userSessionId.
      rewrite if_truthy_str by (apply Hne; now left).
      split; [intros Hm; now apply mirrors_delete | auto]. }
    destruct H1 as (Hm1 & Hn1 & Hs1).
    destruct (IH (Map_delete k m) cl1 (fun k' H => Hne k' (or_intror H)))
      as (Ha & Hb & Hc).
    unfold receive_all in Ha, Hb, Hc. rewrite Hb, Hc. auto.
Qed.

Lemma step_connect_room conn userColor r :
  ~ In conn (Map_keys (connectedUsers r)) ->
  fst (step (Connect conn userColor) r)
  = mkRoom (connectedUsers r
            ++ [(conn, mkSession (Some (JStr userColor)) undefined undefined undefined)])
           (connections r ++ [conn]).
Proof.
  intros Hfresh. simpl step. unfold run. rewrite onConnect_eq.
  cbn [fst connectedUsers connections open_connection].
  now rewrite Map_set_absent.
Qed.

Lemma includes_app_last conns c : includes (conns ++ [c]) c = true.
Proof. apply includes_In, in_or_app. right. now left. Qed.

Lemma includes_app_other conns conn c :
  conn <> c -> includes (conns ++ [conn]) c = includes conns c.
Proof.
  intros Hne. destruct (includes conns c) eqn:E.
  - apply includes_In, in_or_app. left. now apply includes_In.
  - apply includes_not_In. intros H. apply in_app_or in H. destruct H as [H|[H|[]]].
    + apply includes_In in H. congruence.
    + contradiction.
Qed.

Lemma connect_clients_ok whole conn userColor r (cs : Map Client) :
  wf r ->
  colors_ok color_string (connectedUsers r) ->
  (forall c, In c (connections r) -> c <> "") ->
  Map_keys cs = connections r ->
  (forall c cl, Map_get c cs = Some cl -> client_ok whole r c cl) ->
  ~ In conn (connections r) -> conn <> "" -> userColor <> "" ->
  forall c cl',
    Map_get c (deliver (snd (step (Connect conn userColor) r))
                 (Map_set conn (handleOpen new_client) cs)) = Some cl' ->
    client_ok whole (fst (step (Connect conn userColor) r)) c cl'.
Proof.
  intros Hwf Hcol Hids Hkeys Hcl Hfresh Hconn Hcolor c cl' Hget.
  pose proof Hwf as (Hk & Hc & Hi).
  assert (Hfresh' : ~ In conn (Map_keys (connectedUsers r))) by (intros H; auto).
  rewrite step_connect_room by assumption.
  rewrite step_connect in Hget by assumption.
  rewrite deliver_get in Hget. unfold connect_sends in Hget.
  rewrite !inbox_app, inbox_roster, inbox_one in Hget.
  rewrite !inbox_to_each in Hget;
    [| apply NoDup_app; [assumption | apply NoDup_cons; [intros [] | apply NoDup_nil] |];
       intros k Hin [->|[]]; contradiction
     | assumption].
  set (me := mkSession (Some (JStr userColor)) undefined undefined undefined) in *.
  assert (Hlen : length (connections r ++ [conn]) = S (length (connections r)))
    by (rewrite length_app; simpl; apply Nat.add_1_r).
  unfold client_ok. cbn [connectedUsers connections]. rewrite Hlen.
  destruct (String.eqb conn c) eqn:E.
  - apply String.eqb_eq in E. subst c.
    rewrite Map_get_set_same in Hget. simpl option_map in Hget.
    rewrite includes_app_last in Hget.
    assert (includes (connections r) conn = false) as Hninc
      by now apply includes_not_In.
    rewrite Hninc in Hget. rewrite ?app_nil_l, ?app_nil_r in Hget.
    injection Hget as <-. rewrite !receive_all_app, !receive_all_one.
    destruct (roster_received cursor_truthy conn (connectedUsers r) [] (handleOpen new_client))
      as (Hm & Hn & Hs).
    + assumption.
    + assumption.
    + intros k Hin. apply Hids. now apply Hi.
    + reflexivity.
    + simpl app in Hm.
      rewrite receive_userColors, receive_userCount, receive_userSessionId.
      cbv iota. rewrite receive_userColors, receive_userSessionId. cbv iota.
      simpl relay. rewrite !if_truthy_str by assumption.
      rewrite Hs. split; [intros _|split; [reflexivity | now left]].
      rewrite <- (Map_set_absent conn me (connectedUsers r)) by assumption.
      now apply mirrors_set.
  - apply String.eqb_neq in E.
    rewrite Map_get_set_other in Hget by congruence.
    destruct (Map_get c cs) as [cl|] eqn:Hc0; [|discriminate].
    destruct (Hcl c cl Hc0) as (Hm & Hn & Hs).
    assert (Hopen : In c (connections r))
      by (rewrite <- Hkeys; eapply Map_get_Some_In; eassumption).
    rewrite includes_app_other in Hget by assumption.
    apply includes_In in Hopen. rewrite Hopen in Hget.
    simpl in Hget. injection Hget as <-.
    unfold receive_all. simpl fold_left.
    rewrite receive_userColors, receive_userCount, receive_userSessionId.
    cbv iota. rewrite receive_userColors, receive_userSessionId. cbv iota.
    simpl relay. rewrite !if_truthy_str by assumption.
    split; [intros Hw|split; [reflexivity | assumption]].
    rewrite <- (Map_set_absent conn me (connectedUsers r)) by assumption.
    apply mirrors_set; auto.
Qed.

Lemma close_clients_ok whole conn r (cs : Map Client) :
  wf r ->
  (forall c, In c (connections r) -> c <> "") ->
  Map_keys cs = connections r ->
  (forall c cl, Map_get c cs = Some cl -> client_ok whole r c cl) ->
  In conn (connections r) ->
  forall c cl',
    Map_get c (deliver (snd (step (Close conn) r)) (Map_delete conn cs)) = Some cl' ->
    client_ok whole (fst (step (Close conn) r)) c cl'.
Proof.
  intros (Hk & Hc & Hi) Hids Hkeys Hcl Hopen c cl'.
  simpl step. unfold run. rewrite onClose_eq.
  cbn [fst snd connectedUsers connections closed_connection].
  set (rest := filter (fun c => negb (String.eqb c conn)) (connections r)).
  assert (Hrest : NoDup rest) by now apply NoDup_filter.
  rewrite deliver_get, inbox_app, !inbox_to_each by assumption.
  rewrite Map_get_delete_same by now rewrite Hkeys.
  destruct (String.eqb conn c) eqn:E; [discriminate|].
  apply String.eqb_neq in E.
  destruct (Map_get c cs) as [cl|] eqn:Hc0; [|discriminate].
  destruct (Hcl c cl Hc0) as (Hm & Hn & Hs).
  assert (Hin : includes rest c = true).
  { apply includes_In, filter_In. split.
    - rewrite <- Hkeys. eapply Map_get_Some_In; eassumption.
    - apply negb_true_iff, String.eqb_neq. congruence. }
  rewrite Hin. simpl. intros [= <-].
  unfold receive_all. simpl fold_left. unfold client_ok.
  cbn [connectedUsers connections].
  rewrite receive_userColors, receive_userCount, receive_userSessionId. cbv iota.
  rewrite receive_userColors, receive_userSessionId. cbv iota.
  rewrite if_truthy_str by now apply Hids.
  split; [intros Hw; apply mirrors_delete; auto | split; [reflexivity | assumption]].
Qed.

Lemma evicted_keys pid current (m : Map Session) k :
  In k (evicted pid current m) -> In k (Map_keys m).
Proof.
  unfold evicted, Map_keys. rewrite !in_map_iff.
  intros (e & He & Hin). apply filter_In in Hin. exists e. tauto.
Qed.

Lemma recipients_NoDup without r : NoDup (connections r) -> NoDup (recipients without r).
Proof. intros H. now apply NoDup_filter. Qed.

Lemma neutral_received whole msg r c cl (inc : bool) :
  neutral msg = true -> client_ok whole r c cl ->
  client_ok whole r c (receive_all (if inc then [msg] else []) cl).
Proof.
  intros Hn Hok. destruct inc; [|assumption].
  unfold receive_all. simpl fold_left. unfold client_ok in *.
  rewrite receive_userColors, receive_userCount, receive_userSessionId.
  destruct msg; try discriminate; assumption.
Qed.

Lemma client_ok_same_view whole r r' c cl :
  table_view (connectedUsers r') = table_view (connectedUsers r) ->
  connections r' = connections r ->
  client_ok whole r c cl -> client_ok whole r' c cl.
Proof.
  unfold client_ok, mirrors. intros Hv Hc (Hm & Hn & Hs). rewrite Hv, Hc. auto.
Qed.

Lemma message_clients_ok whole sender message r (cs : Map Client) :
  wf r ->
  (forall c, In c (connections r) -> c <> "") ->
  Map_keys cs = connections r ->
  (forall c cl, Map_get c cs = Some cl -> client_ok whole r c cl) ->
  In sender (connections r) ->
  well_behaved (Message sender message) = true ->
  forall c cl',
    Map_get c (deliver (snd (step (Message sender message) r)) cs) = Some cl' ->
    client_ok whole (fst (step (Message sender message) r)) c cl'.
Proof.
  intros (Hk & Hc & Hi) Hids Hkeys Hcl Hsender Hwb c cl'.
  rewrite deliver_get.
  destruct (Map_get c cs) as [cl|] eqn:Hc0; [|discriminate].
  pose proof (Hcl c cl Hc0) as Hok.
  assert (Hopen : includes (connections r) c = true)
    by (apply includes_In; rewrite <- Hkeys; eapply Map_get_Some_In; eassumption).
  simpl option_map. intros [= <-]. revert Hwb.
  simpl step. unfold run. unfold well_behaved.
  message_cases sender message r; cbn [fst snd]; intros Hwb;
    rewrite ?inbox_app, ?inbox_evictions, ?inbox_one, ?inbox_to_each
      by auto using recipients_NoDup;
    try exact Hok.
  - (* identify, with a session *)
    rewrite Hopen, receive_all_app.
    set (users := Map_set sender _ (connectedUsers r)).
    set (ks := evicted _ sender users).
    assert (Hview : table_view users = table_view (connectedUsers r))
      by (eapply table_view_same_color; [eassumption | reflexivity]).
    assert (Hkeys' : Map_keys users = Map_keys (connectedUsers r))
      by (apply Map_set_present; eapply Map_get_Some_In; eassumption).
    destruct Hok as (Hm & Hn & Hs).
    destruct (evictions_received ks users cl) as (Ha0 & Hb & Hc').
    { intros k Hin. apply Hids, Hi. rewrite <- Hkeys'.
      eapply evicted_keys; eassumption. }
    assert (Ha : whole = true ->
                 mirrors (userColors (receive_all (map UserDisconnect ks) cl))
                   (delete_all ks users))
      by (intros Hw; apply Ha0; unfold mirrors; rewrite Hview; exact (Hm Hw)).
    unfold client_ok. cbn [connectedUsers connections].
    destruct (String.eqb sender c) eqn:E.
    + apply String.eqb_eq in E. subst c. rewrite receive_all_one.
      rewrite receive_userColors, receive_userCount, receive_userSessionId. cbv iota.
      rewrite if_truthy_str by now apply Hids.
      rewrite Hb. auto.
    + rewrite receive_all_nil. rewrite Hb, Hc'. auto.
  - (* identify, without a session *)
    destruct Hok as (Hm & Hn & Hs). unfold client_ok.
    destruct (String.eqb sender c) eqn:E.
    + apply String.eqb_eq in E. subst c. rewrite receive_all_one.
      rewrite receive_userColors, receive_userCount, receive_userSessionId. cbv iota.
      rewrite if_truthy_str by now apply Hids. auto.
    + rewrite receive_all_nil. auto.
  - (* cursor-move *)
    apply neutral_received; [reflexivity|].
    eapply client_ok_same_view; [| |exact Hok]; [|reflexivity].
    cbn [connectedUsers]. eapply table_view_same_color; [eassumption | reflexivity].
  - (* cursor-leave *)
    now apply neutral_received.
  - (* user-color-change *)
    destruct (prop data "color") as [[| | |c0| |]|] eqn:Hcolor; try discriminate.
    apply negb_true_iff, String.eqb_neq in Hwb.
    rewrite Hopen, receive_all_one. destruct Hok as (Hm & Hn & Hs).
    unfold client_ok. cbn [connectedUsers connections].
    rewrite receive_userColors, receive_userCount, receive_userSessionId. cbv iota.
    simpl relay. rewrite !if_truthy_str by auto.
    split; [intros Hw; apply mirrors_set; auto | auto].
  - (* camera-sync *)
    now apply neutral_received.
Qed.

Lemma well_behaved_color e :
  well_behaved e = true -> event_color_ok color_string e.
Proof.
  destruct e as [conn c | sender [|data] | conn |]; simpl; try exact (fun _ => I).
  - intros H. apply andb_true_iff in H. destruct H as [_ H].
    apply negb_true_iff, String.eqb_neq in H. exists c. auto.
  - intros H Hty. rewrite Hty in H.
    destruct (prop data "color") as [[| | |c0| |]|]; try discriminate.
    apply negb_true_iff, String.eqb_neq in H. exists c0. auto.
Qed.

Lemma world_step_ok whole e w :
  world_ok whole w -> enabled e (room w) = true -> well_behaved e = true ->
  (whole = true -> is_hibernate e = false) ->
  world_ok whole (world_step e w).
Proof.
  intros (Hwf & Hcol & Hids & Hkeys & Hcl) Hen Hwb Hhib.
  unfold world_step. destruct (step e (room w)) as [r' out] eqn:Hstep.
  assert (Hr : r' = fst (step e (room w))) by now rewrite Hstep.
  assert (Ho : out = snd (step e (room w))) by now rewrite Hstep.
  clear Hstep. subst r' out. unfold world_ok. cbn [room clients].
  split; [now apply step_wf|].
  split; [apply step_colors; [assumption | now apply well_behaved_color]|].
  pose proof Hwf as (Hk & Hc & Hi).
  destruct e as [conn c | sender message | conn |].
  - simpl in Hen. apply negb_true_iff, includes_not_In in Hen.
    simpl in Hwb. apply andb_true_iff in Hwb. destruct Hwb as [Hconn Hcolor].
    apply negb_true_iff, String.eqb_neq in Hconn, Hcolor.
    assert (Hfresh : ~ In conn (Map_keys (connectedUsers (room w))))
      by (intros H; auto).
    split; [|split].
    + rewrite step_connect_room by assumption. cbn [connections].
      intros c0 Hin. apply in_app_or in Hin. destruct Hin as [Hin|[<-|[]]]; auto.
    + rewrite deliver_keys, step_connect_room by assumption.
      cbn [connections arrive].
      rewrite Map_set_absent by now rewrite Hkeys.
      unfold Map_keys in *. rewrite map_app, Hkeys. reflexivity.
    + now apply connect_clients_ok.
  - simpl in Hen. apply includes_In in Hen. split; [|split].
    + simpl step. now rewrite onMessage_connections.
    + rewrite deliver_keys. simpl step. now rewrite onMessage_connections.
    + now apply message_clients_ok.
  - simpl in Hen. apply includes_In in Hen. split; [|split].
    + simpl step. unfold run. rewrite onClose_eq.
      cbn [fst connections closed_connection]. intros c Hin.
      apply filter_In in Hin. apply Hids. tauto.
    + rewrite deliver_keys. simpl step. unfold run. rewrite onClose_eq.
      cbn [fst connections closed_connection arrive].
      rewrite Map_delete_keys by now rewrite Hkeys. now rewrite Hkeys.
    + now apply close_clients_ok.
  - cbn [step fst snd hibernated connections arrive deliver fold_left].
    split; [assumption | split; [assumption|]].
    intros c cl Hget. destruct (Hcl c cl Hget) as (Hm & Hn & Hs).
    unfold client_ok. cbn [connections]. split; [|auto].
    intros Hw. specialize (Hhib Hw). discriminate.
Qed.

Lemma empty_world_ok whole : world_ok whole empty_world.
Proof.
  unfold world_ok. cbn [room clients empty_world].
  split; [apply initial_wf|]. split; [intros ? ? []|]. split; [intros ? []|].
  split; [reflexivity | discriminate].
Qed.

Lemma world_exec_ok whole events w :
  world_ok whole w -> valid events (room w) = true ->
  forallb well_behaved events = true ->
  (whole = true -> forallb (fun e => negb (is_hibernate e)) events = true) ->
  world_ok whole (world_exec events w).
Proof.
  revert w. induction events as [|e events IH]; intros w Hok Hv Hwb Hhib;
    cbn [valid forallb world_exec] in *.
  - assumption.
  - apply andb_true_iff in Hv. destruct Hv as [He Hv].
    apply andb_true_iff in Hwb. destruct Hwb as [Hb Hwb].
    apply IH; [apply world_step_ok; auto | | assumption |].
    + intros Hw. specialize (Hhib Hw). apply andb_true_iff in Hhib.
      now apply negb_true_iff.
    + unfold world_step. destruct (step e (room w)) as [r' out] eqn:Hstep.
      cbn [room]. exact Hv.
    + intros Hw. specialize (Hhib Hw). apply andb_true_iff in Hhib. tauto.
Qed.

Lemma open_connection_has_client whole events c :
  valid events initial = true ->
  forallb well_behaved events = true ->
  (whole = true -> forallb (fun e => negb (is_hibernate e)) events = true) ->
  In c (connections (exec events initial)) ->
  exists cl,
    Map_get c (clients (world_exec events empty_world)) = Some cl
    /\ client_ok whole (exec events initial) c cl.
Proof.
  intros Hv Hwb Hhib Hin.
  destruct (world_exec_ok whole events empty_world (empty_world_ok whole) Hv Hwb Hhib)
    as (_ & _ & _ & Hkeys & Hcl).
  rewrite world_exec_room in Hkeys, Hcl. cbn [room empty_world] in Hkeys, Hcl.
  destruct (Map_get c (clients (world_exec events empty_world))) as [cl|] eqn:E.
  - exists cl. split; [reflexivity | now apply Hcl].
  - apply Map_get_None in E. rewrite Hkeys in E. contradiction.
Qed.

(** A hibernation is not told to the clients: after A and B have connected
    and the server has hibernated, C's connect makes the table hold C alone,
    while A's client lists A, B and C. *)
Example hibernation_breaks_mirror :
  let events := two_users ++ [Hibernate; Connect "C" color_C] in
  valid events initial = true
  /\ forallb well_behaved events = true
  /\ table_view (connectedUsers (exec events initial))
     = [(JStr "C", Some (JStr color_C))]
  /\ option_map shown (Map_get "A" (clients (world_exec events empty_world)))
     = Some [(JStr "A", Some (JStr color_A)); (JStr "B", Some (JStr color_B));
             (JStr "C", Some (JStr color_C))].
Proof. vm_compute. repeat split. Qed.



(** X15: every client shows the number of open connections: after any
    sequence of such events the client of every open connection holds, as
    its user count, the current number of open connections. *)
Theorem clients_show_connection_count (events : list Event) (c : string) :
  valid events initial = true ->
  forallb well_behaved events = true ->
  In c (connections (exec events initial)) ->
  exists cl,
    Map_get c (clients (world_exec events empty_world)) = Some cl
    /\ userCount cl = number_of_nat (length (connections (exec events initial))).
Proof.
  intros Hv Hwb Hin.
  destruct (open_connection_has_client false events c Hv Hwb
              (fun H => False_ind _ (Bool.diff_false_true H)) Hin)
    as (cl & Hget & _ & Hn & _).
  exists cl. split; assumption.
Qed.

Lemma clients_show_connection_count_witness :
  exists cl,
    Map_get "B" (clients (world_exec busy_session empty_world)) = Some cl
    /\ userCount cl = number_of_nat (length (connections (exec busy_session initial))).
Proof.
  apply (clients_show_connection_count busy_session "B").
  - reflexivity.
  - reflexivity.
  - vm_compute. tauto.
Defined.

(** X16: a client never takes another connection's id for its own: its
    [userSessionId] is either unset or the id of its own connection. *)
Theorem client_session_id_is_own (events : list Event) (c : string) :
  valid events initial = true ->
  forallb well_behaved events = true ->
  In c (connections (exec events initial)) ->
  exists cl,
    Map_get c (clients (world_exec events empty_world)) = Some cl
    /\ (userSessionId cl = None \/ userSessionId cl = Some (JStr c)).
Proof.
  intros Hv Hwb Hin.
  destruct (open_connection_has_client false events c Hv Hwb
              (fun H => False_ind _ (Bool.diff_false_true H)) Hin)
    as (cl & Hget & _ & _ & Hs).
  exists cl. split; assumption.
Qed.

Lemma client_session_id_is_own_witness :
  exists cl,
    Map_get "C" (clients (world_exec busy_session empty_world)) = Some cl
    /\ (userSessionId cl = None \/ userSessionId cl = Some (JStr "C")).
Proof.
  apply (client_session_id_is_own busy_session "C").
  - reflexivity.
  - reflexivity.
  - vm_compute. tauto.
Defined.

Example busy_session_views :
  let w := world_exec busy_session empty_world in
  connectedUsers (room w)
  = [("B", mkSession (Some (JStr "hsl(200, 90%, 55%)")) (Some (JStr "u1")) None None);
     ("C", mkSession (Some (JStr "hsl(120, 75%, 65%)")) None None None)]
  /\ option_map userColors (Map_get "A" (clients w))
     = Some [(JStr "B", JStr "hsl(200, 90%, 55%)"); (JStr "C", JStr "hsl(120, 75%, 65%)")]
  /\ option_map userSessionId (Map_get "A" (clients w)) = Some (Some (JStr "A"))
  /\ option_map userSessionId (Map_get "C" (clients w)) = Some None.
Proof. vm_compute. repeat split. Qed.





(** X18: a colour pick reaches the peers in two steps.  [handleColorPick]
    sends a cursor-move and then a user-color-change; the server relays the
    cursor-move to the other connections with the colour the sender had
    before the pick, then tells every connection the picked colour, and ends
    up holding the picked colour and the picked cursor for the sender.  With
    a socket that is not open nothing is sent. *)
Theorem pick_sends_cursor_then_color
    (sender : string) (event : ColorPickEvent) (u : Session) (r : Room) :
  Map_get sender (connectedUsers r) = Some u ->
  let frames := map (Message sender) (handleColorPick true event) in
  outputs frames r
  = to_each (recipients [sender] r)
      (CursorMove sender (Some (reparse (pick_position event)))
         (Some (reparse (pick_normal event))) (color u)
         (Some (reparse (pick_rgb event))))
    ++ to_each (connections r)
         (UserColorChange sender (Some (JStr (pick_color event))))
  /\ Map_get sender (connectedUsers (exec frames r))
     = Some (mkSession (Some (JStr (pick_color event))) (persistentUserId u)
               (Some (reparse (pick_position event)))
               (Some (reparse (pick_normal event))))
  /\ handleColorPick false event = [].
Proof.
  intros Hu frames. subst frames.
  unfold handleColorPick, sendColorPick, sendColorChange.
  cbn [map app outputs exec]. rewrite app_nil_r.
  set (move := JObj _). set (change := JObj _).
  assert (Hmv : is_case (prop move "type") "cursor-move" = true) by reflexivity.
  assert (Hcc : is_case (prop change "type") "user-color-change" = true) by reflexivity.
  cbn [step]. unfold run.
  rewrite (onMessage_cursor_move _ _ _ _ Hmv Hu). cbn [fst snd].
  set (r1 := mkRoom _ _).
  assert (Hu1 : Map_get sender (connectedUsers r1)
                = Some (with_cursor u (prop move "position") (prop move "normal")))
    by apply Map_get_set_same.
  rewrite (onMessage_color_change _ _ _ _ Hcc Hu1). cbn [fst snd connectedUsers].
  split; [reflexivity|]. split; [|reflexivity].
  rewrite Map_get_set_same. reflexivity.
Qed.

Lemma pick_sends_cursor_then_color_witness :
  let event := mkPick (vec 0.5 0.25 0.125) (vec 0 0 1) "#ff8800"
                 (JObj [("r", JNum 255); ("g", JNum 136); ("b", JNum 0)]) in
  let r := exec two_users initial in
  let frames := map (Message "A") (handleColorPick true event) in
  outputs frames r
  = [Send "B" (CursorMove "A" (Some (vec 0.5 0.25 0.125)) (Some (vec 0 0 1))
                 (Some (JStr color_A))
                 (Some (JObj [("r", JNum 255); ("g", JNum 136); ("b", JNum 0)])));
     Send "A" (UserColorChange "A" (Some (JStr "#ff8800")));
     Send "B" (UserColorChange "A" (Some (JStr "#ff8800")))]
  /\ Map_get "A" (connectedUsers (exec frames r))
     = Some (mkSession (Some (JStr "#ff8800")) None
               (Some (vec 0.5 0.25 0.125)) (Some (vec 0 0 1)))
  /\ handleColorPick false event = [].
Proof.
  exact (pick_sends_cursor_then_color "A"
           (mkPick (vec 0.5 0.25 0.125) (vec 0 0 1) "#ff8800"
              (JObj [("r", JNum 255); ("g", JNum 136); ("b", JNum 0)]))
           (mkSession (Some (JStr color_A)) None None None)
           (exec two_users initial) eq_refl).
Defined.

Lemma receive_all_fixed msgs cl :
  (forall msg, In msg msgs -> receive msg cl = cl) -> receive_all msgs cl = cl.
Proof.
  unfold receive_all. induction msgs as [|msg msgs IH]; intros H; simpl.
  - reflexivity.
  - rewrite (H msg) by now left. apply IH. intros m Hm. apply H. now right.
Qed.

Lemma inbox_to_each_all c conns msg m : In m (inbox c (to_each conns msg)) -> m = msg.
Proof.
  unfold inbox, to_each. rewrite in_map_iff. intros (s & <- & Hs).
  apply filter_In in Hs. destruct Hs as [Hs _].
  apply in_map_iff in Hs. destruct Hs as (x & <- & _). reflexivity.
Qed.

(** X19: a user-color-change without a [color] field splits server and
    clients: the server overwrites the sender's colour with [undefined] and
    broadcasts the change, but every client ignores the frame, so no client
    changes at all and each goes on showing the colour it had. *)
Theorem colorless_change_is_ignored_by_clients
    (sender : string) (data : json) (u : Session) (r : Room) (cs : Map Client) :
  is_case (prop data "type") "user-color-change" = true ->
  prop data "color" = undefined ->
  Map_get sender (connectedUsers r) = Some u ->
  let r' := fst (step (Message sender (JSON data)) r) in
  let out := snd (step (Message sender (JSON data)) r) in
  option_map color (Map_get sender (connectedUsers r')) = Some undefined
  /\ out = to_each (connections r) (UserColorChange sender undefined)
  /\ (forall c, Map_get c (deliver out cs) = Map_get c cs).
Proof.
  intros Hty Hcolor Hu r' out. subst r' out. simpl step. unfold run.
  rewrite (onMessage_color_change _ _ _ _ Hty Hu), Hcolor.
  cbn [fst snd connectedUsers]. rewrite Map_get_set_same.
  split; [reflexivity|]. split; [reflexivity|].
  intros c. rewrite deliver_get. destruct (Map_get c cs) as [cl|]; [|reflexivity].
  simpl. f_equal. apply receive_all_fixed. intros msg Hin.
  apply inbox_to_each_all in Hin. subst msg. unfold receive.
  cbn -[if_truthy]. now destruct (if_truthy (Some (JStr sender))).
Qed.

Lemma colorless_change_is_ignored_by_clients_witness :
  let data := JObj [("type", JStr "user-color-change")] in
  let w := world_exec two_users empty_world in
  let r' := fst (step (Message "A" (JSON data)) (room w)) in
  let out := snd (step (Message "A" (JSON data)) (room w)) in
  option_map color (Map_get "A" (connectedUsers r')) = Some undefined
  /\ out = to_each (connections (room w)) (UserColorChange "A" undefined)
  /\ (forall c, Map_get c (deliver out (clients w)) = Map_get c (clients w)).
Proof.
  exact (colorless_change_is_ignored_by_clients "A"
           (JObj [("type", JStr "user-color-change")])
           (mkSession (Some (JStr color_A)) None None None)
           (room (world_exec two_users empty_world))
           (clients (world_exec two_users empty_world))
           eq_refl eq_refl eq_refl).
Defined.

(** X20: the persistent user id is stable.  With a non-empty generated id,
    [getPersistentUserId] returns a non-empty id and leaves exactly that id
    stored, and every later call returns the same id whatever the generator
    would produce then; an empty stored item counts as none. *)
Theorem persistent_id_is_stable (stored : option string) (newId laterId : string) :
  newId <> "" ->
  let id := fst (getPersistentUserId stored newId) in
  let stored' := snd (getPersistentUserId stored newId) in
  id <> ""
  /\ stored' = Some id
  /\ getPersistentUserId stored' laterId = (id, stored')
  /\ getPersistentUserId (Some "") newId = getPersistentUserId None newId.
Proof.
  intros Hne. unfold getPersistentUserId.
  assert (Hnew : String.eqb newId "" = false) by now apply String.eqb_neq.
  destruct stored as [id|]; [destruct (String.eqb id "") eqn:E|]; simpl.
  - rewrite Hnew. simpl. auto.
  - rewrite E. simpl. apply String.eqb_neq in E. auto.
  - rewrite Hnew. simpl. auto.
Qed.

Lemma persistent_id_is_stable_witness :
  let id := fst (getPersistentUserId None "1b9d6bcd-bbfd-4b2d-9b5d-ab8dfbbd4bed") in
  let stored' := snd (getPersistentUserId None "1b9d6bcd-bbfd-4b2d-9b5d-ab8dfbbd4bed") in
  id <> ""
  /\ stored' = Some id
  /\ getPersistentUserId stored' "another" = (id, stored')
  /\ getPersistentUserId (Some "") "1b9d6bcd-bbfd-4b2d-9b5d-ab8dfbbd4bed"
     = getPersistentUserId None "1b9d6bcd-bbfd-4b2d-9b5d-ab8dfbbd4bed".
Proof.
  apply (persistent_id_is_stable None "1b9d6bcd-bbfd-4b2d-9b5d-ab8dfbbd4bed" "another").
  discriminate.
Defined.

(** X21: client and server agree on the frame types: every frame the server
    builds has a [type] the client's [switch] has a case for, and every frame
    a sender of the client produces has a [type] the server's [switch] has a
    case for. *)
Theorem frame_types_agree :
  (forall msg, client_recognised (prop (wire msg) "type") = true)
  /\ (forall open connected persistentId event camera color f,
        In f (sendIdentify open connected persistentId ++ sendColorPick open event
              ++ sendCursorLeave open ++ sendCameraChange open camera
              ++ sendColorChange open color) ->
        unhandled f = false).
Proof.
  split.
  - intros [k c | k p n c g | k | k c | cam | k | n | k]; reflexivity.
  - intros [|] [|] persistentId event camera color f; simpl; try tauto;
      intros H; decompose [or] H; subst; try contradiction; reflexivity.
Qed.

(* ================================================================== *)
(** ** The picked colour *)
(* ================================================================== *)

Lemma clamped_range r : (0 <= clamped r <= 255)%Z.
Proof. unfold clamped. lia. Qed.

Lemma toHex_byte_table :
  forallb (fun k =>
             Nat.eqb (String.length (toHex (Z.of_nat k))) 2
             && N.eqb (HexString.Raw.to_N (toHex (Z.of_nat k)) 0) (N.of_nat k))
          (seq 0 256) = true.
Proof. vm_compute. reflexivity. Qed.

Lemma toHex_byte v :
  (0 <= v <= 255)%Z ->
  String.length (toHex v) = 2
  /\ HexString.Raw.to_N (toHex v) 0 = Z.to_N v.
Proof.
  intros Hv. pose proof toHex_byte_table as H.
  rewrite forallb_forall in H. specialize (H (Z.to_nat v)).
  rewrite Z2Nat.id in H by lia.
  assert (Hin : In (Z.to_nat v) (seq 0 256)) by (apply in_seq; lia).
  apply H in Hin. apply andb_true_iff in Hin. destruct Hin as [H1 H2].
  apply Nat.eqb_eq in H1. apply N.eqb_eq in H2.
  split; [assumption|]. rewrite H2. lia.
Qed.

Lemma length_append (a b : string) :
  String.length (a ++ b) = String.length a + String.length b.
Proof. induction a as [|ch a IH]; simpl; [reflexivity | now rewrite IH]. Qed.

(** X22: the picked colour is always a well-formed hex colour.  Whatever the
    three rounded components are, each is clamped into 0..255 (unchanged when
    already there), each is written as exactly two hex digits that read back
    as the clamped value, the colour string has 7 characters starting with
    [#], and the user-color-change frame the client then sends carries a
    non-empty string. *)
Theorem picked_color_is_hex (r g b : Z) :
  (forall n, (0 <= clamped n <= 255)%Z
             /\ ((0 <= n <= 255)%Z -> clamped n = n)
             /\ String.length (toHex (clamped n)) = 2
             /\ HexString.Raw.to_N (toHex (clamped n)) 0 = Z.to_N (clamped n))
  /\ hexColor r g b
     = String "#" (toHex (clamped r) ++ toHex (clamped g) ++ toHex (clamped b))
  /\ String.length (hexColor r g b) = 7
  /\ (forall sender,
        forallb well_behaved
          (map (Message sender) (sendColorChange true (hexColor r g b))) = true).
Proof.
  split; [|split; [reflexivity | split]].
  - intros n. pose proof (clamped_range n) as Hr.
    destruct (toHex_byte (clamped n) Hr) as [H1 H2].
    repeat split; try lia; try assumption. intros Hn. unfold clamped. lia.
  - unfold hexColor. simpl String.length. rewrite !length_append.
    destruct (toHex_byte _ (clamped_range r)) as [-> _].
    destruct (toHex_byte _ (clamped_range g)) as [-> _].
    destruct (toHex_byte _ (clamped_range b)) as [-> _]. reflexivity.
  - intros sender. reflexivity.
Qed.
